(** * GEEQuestionBank: the PDF-to-question-bank pipeline of [core.py]

    A shallow embedding of the extraction pipeline: the incompleteness
    heuristic, the per-page continuation logic of [main], the processed-file
    ledger and the JSON question store, followed by the properties that the
    design document states about them.  The cleaning of the service's answer
    in [call_vlm_api], [prepare_embeddings.py] and the start of [app.py] are
    modelled as well, with properties of their own.

    Conventions.
    - A Python [str] is a list of Unicode code points ([str]), because the
      code slices text by character ([stem[-10:]]) and compares against
      non-ASCII tokens.  Dictionary keys are only ever compared for equality,
      so they are kept as [string] literals.
    - A question is a Python [dict], modelled as [gmap string value]; a
      value is null, a boolean, a number, a text, a list of values, or the
      options mapping.  A key stands for the bytes of its (generalized) UTF-8
      encoding.
    - A Python exception that [main] does not catch is the [Raise] outcome of
      the [result] monad.
    - The renderer and the extraction service are parameters: a document is
      given by what rendering makes of each page, the service by a function
      of the page image and the prompt.  The temporary image files and the
      log output are left out. *)

From Stdlib Require Import ZArith NArith Ascii String List Lia.
From Stdlib Require Import Numbers.DecimalString.
From stdpp Require Import base option list gmap strings.

Open Scope Z_scope.
Open Scope list_scope.

(** ** Text *)

Definition char := N.
Definition str := list char.

(** [u "abc"] is the Python string whose characters are the ASCII characters
    of the literal. *)
Definition u (s : string) : str := map N_of_ascii (list_ascii_of_string s).

Definition LF : char := 10%N.
Definition CR : char := 13%N.

(** The non-ASCII tokens of rule 2 of [is_question_incomplete]. *)
Definition fullwidth_comma : str := [65292%N].                       (* U+FF0C *)
Definition fullwidth_colon : str := [65306%N].                       (* U+FF1A *)
Definition as_shown_in_figure : str := [22914; 22270; 25152; 31034]%N. (* U+5982 U+56FE U+6240 U+793A *)

(** [p] occurs at the start of [s]. *)
Fixpoint startswith (s p : str) : bool :=
  match p, s with
  | [], _ => true
  | _ :: _, [] => false
  | a :: p', b :: s' => (a =? b)%N && startswith s' p'
  end.

(** Python's [p in s] on strings: [p] occurs somewhere in [s]. *)
Fixpoint contains (s p : str) : bool :=
  startswith s p ||
  match s with
  | [] => false
  | _ :: s' => contains s' p
  end.

(** Python's [s[-n:]] for [n > 0]: the last [n] characters, the whole string
    when it is shorter. *)
Definition last_chars (n : nat) (s : str) : str := drop (length s - n)%nat s.

(** Python's [s.endswith(p)]. *)
Definition endswith (s p : str) : bool :=
  bool_decide (drop (length s - length p)%nat s = p).

(** Python's [str.isspace] on one character (the code points for which it
    holds). *)
Definition isspace (c : char) : bool :=
  bool_decide (c ∈ [9; 10; 11; 12; 13; 28; 29; 30; 31; 32; 133; 160; 5760;
                    8192; 8193; 8194; 8195; 8196; 8197; 8198; 8199; 8200;
                    8201; 8202; 8232; 8233; 8239; 8287; 12288]%N).

Fixpoint lstrip (s : str) : str :=
  match s with
  | c :: s' => if isspace c then lstrip s' else s
  | [] => []
  end.

(** Python's [s.strip()]. *)
Definition strip (s : str) : str := rev (lstrip (rev (lstrip s))).

(** ** Values and question records *)

#[local] Unset Elimination Schemes.
Inductive value :=
  | VNone
  | VStr (s : str)
  | VInt (z : Z)
  | VDict (d : gmap string str)     (* the options: letter to text *)
  | VBool (b : bool)
  | VFloat (bits : N)               (* a float, by its 64 bits *)
  | VList (items : list value).
#[local] Set Elimination Schemes.

#[global] Instance value_eq_dec : EqDecision value.
Proof.
  refine (fix go (v w : value) {struct v} : Decision (v = w) :=
    match v, w with
    | VNone, VNone => left _
    | VStr s, VStr t => cast_if (decide (s = t))
    | VInt z, VInt y => cast_if (decide (z = y))
    | VDict d, VDict e => cast_if (decide (d = e))
    | VBool b, VBool c => cast_if (decide (b = c))
    | VFloat b, VFloat c => cast_if (decide (b = c))
    | VList l, VList k => cast_if (@list_eq_dec _ go l k)
    | _, _ => right _
    end); congruence.
Defined.

(** A question record as returned by the extraction service and as stored:
    a dictionary from field names to values. *)
Abbreviation question := (gmap string value).

(** ** Outcomes of code that may raise *)

Inductive result (A : Type) :=
  | Ok (a : A)
  | Raise.
Arguments Ok {A} a.
Arguments Raise {A}.

Definition bind {A B} (r : result A) (k : A → result B) : result B :=
  match r with
  | Ok a => k a
  | Raise => Raise
  end.

Notation "'let*' x ':=' r 'in' k" := (bind r (fun x => k))
  (at level 10, x pattern, r at level 100, k at level 200).

(** [question.get(key, '')]. *)
Definition get_or_empty (q : question) (key : string) : value :=
  default (VStr []) (q !! key).

(** ** The incompleteness heuristic *)

Definition choice_markers : list str := [u "A."; u "B."; u "C."; u "D."].

Definition dangling_tokens : list str :=
  [fullwidth_comma; u ","; fullwidth_colon; u ":"; as_shown_in_figure].

(** [options = question.get("options")] followed by [options is None]. *)
Definition options_is_none (q : question) : bool :=
  match q !! "options" with
  | None | Some VNone => true
  | Some _ => false
  end.

(** Python's [l[-n:]] on a list, for [n > 0]. *)
Definition last_items {A} (n : nat) (l : list A) : list A := drop (length l - n)%nat l.

(** [is_question_incomplete].  [question.get("stem_text", "")] is the empty
    string when the key is absent.  On a stem that is a list, [stem[-10:]]
    and [letter in ...] work on the items, so rule 1 can return [True], and
    [stem.endswith] of rule 2 raises; on a stem of any other type that is not
    text, [stem[-10:]] raises. *)
Definition is_question_incomplete (q : question) : result bool :=
  match get_or_empty q "stem_text" with
  | VStr stem =>
      if existsb (contains (last_chars 10 stem)) choice_markers && options_is_none q
      then Ok true
      else if existsb (endswith stem) dangling_tokens
      then Ok true
      else Ok false
  | VList stem =>
      if existsb (λ letter, bool_decide (VStr letter ∈ last_items 10 stem)) choice_markers
         && options_is_none q
      then Ok true
      else Raise
  | _ => Raise
  end.

(** ** Rendering *)

(** What the renderer can do with a PDF: [None] when the document cannot be
    opened, otherwise one entry per page, [None] for a page that cannot be
    rasterized. *)
Definition document (image : Type) := option (list (option image)).

(** The page loop of [pdf_to_images]: images are collected until the first
    page that raises. *)
Fixpoint render_pages {image} (pages : list (option image)) : list image :=
  match pages with
  | Some img :: rest => img :: render_pages rest
  | _ => []
  end.

(** [pdf_to_images]: every exception is caught and logged, and the list built
    so far is returned. *)
Definition pdf_to_images {image} (doc : document image) : list image :=
  match doc with
  | Some pages => render_pages pages
  | None => []
  end.

(** ** Persistent files *)

(** A text can be written to a file opened with [encoding='utf-8']: it
    holds no surrogate code point (U+D800 to U+DFFF). *)
Definition utf8_encodable (s : str) : bool :=
  forallb (λ c, negb ((55296 <=? c)%N && (c <=? 57343)%N)) s.

(** The same for a key, which stands for its bytes: a surrogate shows as the
    byte 0xED followed by a byte from 0xA0 on. *)
Fixpoint key_encodable (k : string) : bool :=
  match k with
  | String a rest =>
      match rest with
      | String b _ =>
          negb ((N_of_ascii a =? 237)%N && (160 <=? N_of_ascii b)%N) && key_encodable rest
      | EmptyString => true
      end
  | EmptyString => true
  end.

(** [json.dump(..., ensure_ascii=False)] can write a value, a record. *)
Fixpoint value_encodable (v : value) : bool :=
  match v with
  | VStr s => utf8_encodable s
  | VDict d => forallb (λ kv, key_encodable kv.1 && utf8_encodable kv.2) (map_to_list d)
  | VList items => forallb value_encodable items
  | VNone | VInt _ | VBool _ | VFloat _ => true
  end.

Definition question_encodable (q : question) : bool :=
  forallb (λ kv, key_encodable kv.1 && value_encodable kv.2) (map_to_list q).

(** The contents of [processed_questions.json] as [json.load] sees it.  The
    pipeline writes arrays of records only; an array that holds anything
    else is left out. *)
Inductive json_file :=
  | Absent                          (* the file does not exist *)
  | NotJson                         (* json.load raises JSONDecodeError *)
  | JsonList (l : list question)    (* a JSON array of question records *)
  | JsonOther                       (* valid JSON that is not an array *)
  | NotUtf8.                        (* reading raises UnicodeDecodeError *)

(** The records already in the store, as [append_to_json_file] reads them:
    [existing_data] after the [try]. *)
Definition stored (f : json_file) : list question :=
  match f with
  | JsonList l => l
  | _ => []
  end.

(** [append_to_json_file], when it returns: the store it has written.  It
    raises while loading when the file is not UTF-8 (only [JSONDecodeError] is
    caught), in [existing_data.extend] on valid JSON that is not a list, and
    in [json.dump] when a text of the old or the new records cannot be
    encoded. *)
Definition append_to_json_file (data : list question) (f : json_file) : result json_file :=
  match f with
  | JsonOther | NotUtf8 => Raise
  | Absent | NotJson | JsonList _ =>
      let existing_data := stored f in
      if forallb question_encodable (existing_data ++ data)
      then Ok (JsonList (existing_data ++ data))
      else Raise
  end.

(** The store that a call of [append_to_json_file] leaves when it raises:
    before [open(filepath, 'w')] the file is untouched; [json.dump] raises
    after that [open] has emptied the file, and what it has written by then
    is the beginning of a JSON text, which does not parse. *)
Definition append_to_json_file_on_raise (f : json_file) : json_file :=
  match f with
  | JsonOther => JsonOther
  | NotUtf8 => NotUtf8
  | Absent | NotJson | JsonList _ => NotJson
  end.

(** Iterating over a text file opened for reading: the lines of the file,
    where ["\n"], ["\r"] and ["\r\n"] all end a line.  The terminators are
    left out; [load_processed_files] strips them anyway.  [after_cr] tells
    that the previous character was a ["\r"]. *)
Fixpoint readlines_from (after_cr : bool) (s : str) : list str :=
  match s with
  | [] => []
  | c :: rest =>
      if (c =? LF)%N then
        if after_cr then readlines_from false rest
        else [] :: readlines_from false rest
      else if (c =? CR)%N then [] :: readlines_from true rest
      else match readlines_from false rest with
           | [] => [[c]]
           | l :: ls => (c :: l) :: ls
           end
  end.

Definition readlines : str → list str := readlines_from false.

(** [load_processed_files]; the log is [None] when the file does not exist. *)
Definition load_processed_files (log : option str) : gset str :=
  match log with
  | None => ∅
  | Some content => list_to_set (strip <$> readlines content)
  end.

(** [log_processed_file], when it returns, as it does on a name that can be
    encoded ([process_file] has the other case): opening in append mode creates
    the file, and the name and a line feed are added. *)
Definition log_processed_file (filename : str) (log : option str) : option str :=
  Some (default [] log ++ filename ++ [LF]).

(** [f.write] raises on a name that cannot be encoded; the ledger then exists
    and has gained nothing. *)
Definition log_processed_file_on_raise (log : option str) : option str :=
  Some (default [] log).

Record disk := Disk {
  result_json : json_file;       (* RESULT_JSON_FILE *)
  processed_log : option str     (* PROCESSED_LOG_FILE *)
}.

Inductive status := Finished | Crashed.

(** ** The pipeline *)

(** The prompt sent with a page: the base prompt, or the continuation prompt
    built from the buffered fragment ([json.dumps] of it) followed by the
    base prompt. *)
Inductive prompt :=
  | VLM_PROMPT
  | CONTINUATION_PROMPT (context : question).

Section Pipeline.

(** A rendered page image. *)
Context {image : Type}.

(** [call_vlm_api]: the parsed list of question records, or [None] when the
    call or the parsing of its answer fails. *)
Variable call_vlm_api : image → prompt → option (list question).

(** Python's [str()] of a float, a list or a dictionary, used only if an
    f-string formats a field that holds one. *)
Variable py_str_other : value → str.

(** What an f-string writes for a value. *)
Definition py_str (v : value) : str :=
  match v with
  | VNone => u "None"
  | VStr s => s
  | VInt z => u (NilZero.string_of_int (Z.to_int z))
  | VBool b => if b then u "True" else u "False"
  | VFloat _ | VList _ | VDict _ => py_str_other v
  end.

(** The f-string of line 245. *)
Definition searchable_text (q : question) : str :=
  py_str (get_or_empty q "section_title") ++ u " " ++
  py_str (get_or_empty q "question_number") ++ u ": " ++
  py_str (get_or_empty q "stem_text").

(** The three assignments in the body of the metadata loop. *)
Definition add_metadata (pdf_filename : str) (page_num : Z) (q : question) : question :=
  let q1 := <["source_pdf" := VStr pdf_filename]> q in
  let q2 := <["source_page" := VInt page_num]> q1 in
  <["searchable_text" := VStr (searchable_text q2)]> q2.

(** Truth value of [incomplete_question_buffer]: [None] and the empty
    dictionary are false. *)
Definition truthy (buffer : option question) : bool :=
  match buffer with
  | Some q => negb (bool_decide (q = ∅))
  | None => false
  end.

Definition current_prompt (buffer : option question) : prompt :=
  match buffer with
  | Some q => if truthy buffer then CONTINUATION_PROMPT q else VLM_PROMPT
  | None => VLM_PROMPT
  end.

(** The state of the page loop: [all_questions_for_this_pdf] and
    [incomplete_question_buffer]. *)
Definition loop_state : Type := list question * option question.

(** The body of the page loop after the extraction call (lines 224-246),
    with the test applied to the last candidate as a parameter. *)
Definition page_body_with (test : question → result bool)
    (pdf_filename : str) (page_num : Z)
    (page_results : option (list question)) (st : loop_state) : result loop_state :=
  let '(all_questions, buffer) := st in
  match page_results with
  | Some (first :: rest) =>
      let '(all_questions, remaining_results, buffer) :=
        if truthy buffer
        then (all_questions ++ [first], rest, None)
        else (all_questions, first :: rest, buffer) in
      let* (remaining_results, buffer) :=
        match last remaining_results with
        | Some q =>
            let* incomplete := test q in
            if incomplete : bool
            then Ok (removelast remaining_results, Some q)
            else Ok (remaining_results, buffer)
        | None => Ok (remaining_results, buffer)
        end in
      Ok (all_questions ++ (add_metadata pdf_filename page_num <$> remaining_results),
          buffer)
  | _ => Ok st
  end.

Definition page_body := page_body_with is_question_incomplete.

(** The page loop, [for i, img_path in enumerate(image_paths)], from index
    [i] on. *)
Fixpoint process_pages_with (test : question → result bool)
    (pdf_filename : str) (i : nat) (image_paths : list image)
    (st : loop_state) : result loop_state :=
  match image_paths with
  | [] => Ok st
  | img :: rest =>
      let page_num := Z.of_nat i + 1 in
      let page_results := call_vlm_api img (current_prompt st.2) in
      let* st := page_body_with test pdf_filename page_num page_results st in
      process_pages_with test pdf_filename (S i) rest st
  end.

Definition process_pages := process_pages_with is_question_incomplete.

(** One iteration of the file loop of [main] (lines 196-258), when it
    completes: the files it leaves. *)
Definition process_file (processed_files : gset str)
    (pdf_filename : str) (doc : document image) (d : disk) : result disk :=
  if bool_decide (pdf_filename ∈ processed_files) then Ok d
  else
    match pdf_to_images doc with
    | [] => Ok d
    | image_paths =>
        let* (all_questions, _) := process_pages pdf_filename 0 image_paths ([], None) in
        match all_questions with
        | [] => Ok d
        | _ =>
            let* json := append_to_json_file all_questions (result_json d) in
            if utf8_encodable pdf_filename
            then Ok (Disk json (log_processed_file pdf_filename (processed_log d)))
            else Raise
        end
    end.

(** The files that an iteration leaves when it raises: as they were if the
    page loop raised, with the store that the failed append left if the
    append raised, and with the new store and a ledger that has gained
    nothing if writing the ledger raised. *)
Definition process_file_on_raise (pdf_filename : str) (doc : document image)
    (d : disk) : disk :=
  match process_pages pdf_filename 0 (pdf_to_images doc) ([], None) with
  | Ok (all_questions, _) =>
      match append_to_json_file all_questions (result_json d) with
      | Ok json => Disk json (log_processed_file_on_raise (processed_log d))
      | Raise => Disk (append_to_json_file_on_raise (result_json d)) (processed_log d)
      end
  | Raise => d
  end.

(** The file loop; an exception ends the run. *)
Fixpoint file_loop (processed_files : gset str)
    (pdf_files : list (str * document image)) (d : disk) : disk * status :=
  match pdf_files with
  | [] => (d, Finished)
  | (pdf_filename, doc) :: rest =>
      match process_file processed_files pdf_filename doc d with
      | Ok d => file_loop processed_files rest d
      | Raise => (process_file_on_raise pdf_filename doc d, Crashed)
      end
  end.

(** [main] on the PDF files of the input directory, each with what the
    renderer makes of it. *)
Definition main (pdf_files : list (str * document image)) (d : disk) : disk * status :=
  let processed_files := load_processed_files (processed_log d) in
  match pdf_files with
  | [] => (d, Finished)
  | _ => file_loop processed_files pdf_files d
  end.

End Pipeline.

(** ** The design document's notions, for comparison with the code *)



Definition options_absent_or_null (q : question) : Prop :=
  q !! "options" = None ∨ q !! "options" = Some VNone.


(** The new candidates of a page: the extraction result, without its first
    record when that one completes a pending fragment. *)
Definition candidates (buffer : option question) (page_results : option (list question))
    : list question :=
  match page_results with
  | Some (first :: rest) => if truthy buffer then rest else first :: rest
  | _ => []
  end.

(** A record carries provenance and search text. *)
Definition has_metadata (q : question) : Prop :=
  is_Some (q !! "source_pdf") ∧ is_Some (q !! "source_page") ∧
  is_Some (q !! "searchable_text").

(** The record of a page that completes a pending fragment: the first record
    of a non-empty extraction result, when a fragment is pending. *)
Definition merged_completion (buffer : option question)
    (page_results : option (list question)) : list question :=
  match page_results with
  | Some (first :: rest) => if truthy buffer then [first] else []
  | _ => []
  end.

(** [out] lists, in their order, the records of an initial part of the
    extraction result [raw] of page [page_num], each either as extracted or
    with its metadata attached. *)
Definition emitted_in_order (py_str_dict : value → str)
    (pdf_filename : str) (page_num : Z) (raw out : list question) : Prop :=
  ∃ kept, kept `prefix_of` raw ∧
    Forall2 (λ r o, o = r ∨ o = add_metadata py_str_dict pdf_filename page_num r) kept out.

(** The extraction results of the pages of a file, in page order, as the page
    loop obtains them ([None] and the empty list both count as no records);
    each comes with its page number. *)
Fixpoint page_results_of_run {image}
    (call_vlm_api : image → prompt → option (list question))
    (py_str_dict : value → str)
    (pdf_filename : str) (i : nat) (image_paths : list image)
    (st : loop_state) : list (Z * list question) :=
  match image_paths with
  | [] => []
  | img :: rest =>
      let page_num := Z.of_nat i + 1 in
      let page_results := call_vlm_api img (current_prompt st.2) in
      (page_num, default [] page_results) ::
      match page_body py_str_dict pdf_filename page_num page_results st with
      | Ok st => page_results_of_run call_vlm_api py_str_dict pdf_filename (S i) rest st
      | Raise => []
      end
  end.

(** A file name that the ledger takes and reads back as written: it can be
    encoded, [strip] leaves it as it is and it contains no line break. *)
Definition clean_name (name : str) : Prop :=
  utf8_encodable name = true ∧ strip name = name ∧ (LF ∉ name) ∧ (CR ∉ name).

(** A ledger whose last line, if any, is ended by a line feed, as every line
    written by [log_processed_file] is. *)
Definition terminated (log : option str) : Prop :=
  match log with
  | None => True
  | Some content => content = [] ∨ ∃ content', content = content' ++ [LF]
  end.

(** ** Example runs *)

(** Sample records: a complete question, a multiple-choice stem cut off after
    "B." with no options yet, its completion, a further question, and a
    completion that is itself still cut off. *)
Definition q_full : question :=
  {[ "section_title" := VStr (u "Part I"); "question_number" := VStr (u "1");
     "stem_text" := VStr (u "Compute 1+1."); "options" := VNone ]}.

Definition q_fragment : question :=
  {[ "question_number" := VStr (u "2");
     "stem_text" := VStr (u "Which holds: A. x B."); "options" := VNone ]}.

Definition q_merged : question :=
  {[ "question_number" := VStr (u "2");
     "stem_text" := VStr (u "Which holds: A. x B. y");
     "options" := VDict {[ "A" := u "x"; "B" := u "y" ]} ]}.

Definition q_other : question :=
  {[ "question_number" := VStr (u "3"); "stem_text" := VStr (u "Prove it.") ]}.

Definition q_still_cut : question :=
  {[ "question_number" := VStr (u "2");
     "stem_text" := VStr (u "Which holds, given that:") ]}.

Definition q_null_title : question :=
  {[ "section_title" := VNone; "question_number" := VStr (u "4");
     "stem_text" := VStr (u "Solve.") ]}.

(** A record with an unpaired surrogate in its stem, as [json.loads] returns
    it for the escape [\ud800]. *)
Definition q_surrogate : question :=
  {[ "question_number" := VStr (u "5"); "stem_text" := VStr [55296%N] ]}.

(** A sample extraction service on page images 1 to 8: image 1 shows one
    complete question; the call fails on image 2; image 3 ends with a
    fragment; images 4 and 5 answer a continuation prompt with a completion
    and the base prompt with another question; images 6 and 7 are the two
    pages of the design document's scenario (a complete question and a
    fragment, then the completion and a new question); image 8 shows the
    question with the surrogate. *)
Definition demo_vlm (img : nat) (p : prompt) : option (list question) :=
  match img with
  | 1 => Some [q_full]
  | 2 => None
  | 3 => Some [q_fragment]
  | 4 => match p with
         | CONTINUATION_PROMPT _ => Some [q_merged]
         | VLM_PROMPT => Some [q_other]
         end
  | 5 => match p with
         | CONTINUATION_PROMPT _ => Some [q_still_cut]
         | VLM_PROMPT => Some [q_other]
         end
  | 6 => Some [q_full; q_fragment]
  | 7 => match p with
         | CONTINUATION_PROMPT _ => Some [q_merged; q_other]
         | VLM_PROMPT => Some [q_other]
         end
  | 8 => Some [q_surrogate]
  | _ => Some []
  end%nat.

(** No sample record has a float, a list or a dictionary in a formatted
    field. *)
Definition demo_fmt (v : value) : str := u "{...}".

(** A record whose stem is a list that holds a marker. *)
Definition q_list_stem : question :=
  {[ "stem_text" := VList [VStr (u "Which holds:"); VStr (u "A.")]; "options" := VNone ]}.

Definition exam_pdf : str := u "exam.pdf".

(** The same name with a leading space. *)
Definition spaced_pdf : str := u " exam.pdf".

(** A name with a byte that is not UTF-8 (0xE9), as [glob] returns it: the
    byte is escaped to the surrogate U+DCE9. *)
Definition latin1_pdf : str := u "expos" ++ [56553%N] ++ u ".pdf".

Definition empty_disk : disk := Disk Absent None.

(** [q_full] as the metadata loop stores it for page 1 of a file. *)
Definition q_full_stored (pdf_filename : str) : question :=
  <[ "searchable_text" := VStr (u "Part I 1: Compute 1+1.") ]>
    (<[ "source_page" := VInt 1 ]> (<[ "source_pdf" := VStr pdf_filename ]> q_full)).


(** A test that raises on one record and agrees with
    [is_question_incomplete] everywhere else. *)
Definition test_except_on (q : question) (c : question) : result bool :=
  if bool_decide (c = q) then Raise else is_question_incomplete c.

(** ** The extraction call *)

(** The opening fence that [call_vlm_api] looks for, and the closing one. *)
Definition json_fence : str := u "```json".
Definition closing_fence : str := u "```".

(** Python's [s[7:-3]]. *)
Definition slice_7_minus_3 (s : str) : str := drop 7 (take (length s - 3) s).

(** Lines 124-127 of [call_vlm_api]: the answer is cut out of a Markdown code
    block when its stripped text starts with the opening fence, and is left
    as it is otherwise. *)
Definition clean_content (content : str) : str :=
  if startswith (strip content) json_fence
  then slice_7_minus_3 (strip content)
  else content.

Section ExtractionCall.

Context {image : Type}.

(** The request to the service: the text of the answer, or [None] when the
    request (or reading the answer) raises. *)
Variable chat_completion : image → prompt → option str.

(** [json.loads] on a list of question records; [None] when it raises
    [JSONDecodeError]. *)
Variable json_loads : str → option (list question).

(** [call_vlm_api]: both kinds of exception are caught and give [None]. *)
Definition call_vlm_api (img : image) (p : prompt) : option (list question) :=
  match chat_completion img p with
  | Some content => json_loads (clean_content content)
  | None => None
  end.

End ExtractionCall.

(** ** The scripts that read the store *)

(** The store as [prepare_embeddings.py] and [app.py] load it.  Both use the
    loaded value as a list of records; valid JSON of another shape is left
    out here. *)
Inductive store_file :=
  | NoStore                                  (* the file does not exist *)
  | BadStore                                 (* json.load raises *)
  | Store (db_questions : list question).

(** The records a run of [main] leaves for the scripts. *)
Definition store_of (f : json_file) : option store_file :=
  match f with
  | Absent => Some NoStore
  | NotJson => Some BadStore
  | JsonList l => Some (Store l)
  | NotUtf8 => Some BadStore
  | JsonOther => None
  end.

(** Line 35 of [prepare_embeddings.py]: [q.get('searchable_text', '')] for
    every record. *)
Definition searchable_texts (db_questions : list question) : list value :=
  (λ q, get_or_empty q "searchable_text") <$> db_questions.

Section Scripts.

(** One embedding vector; the embeddings file holds a list of them. *)
Context {row : Type}.

(** An embedding model: [encode] on a list of texts, which may raise. *)
Definition encoder : Type := list value → result (list row).

(** [SentenceTransformer(...)]: the model, or [None] when loading raises. *)
Variable load_model : option encoder.

(** [main] of [prepare_embeddings.py], as a function of the store and of the
    embeddings file ([None] when there is none); the result is the embeddings
    file afterwards. *)
Definition prepare_embeddings (store : store_file) (embeddings_file : option (list row))
    : result (option (list row)) :=
  match store with
  | NoStore => Ok embeddings_file
  | BadStore => Raise
  | Store db_questions =>
      match load_model with
      | None => Raise
      | Some model =>
          match searchable_texts db_questions with
          | [] => Ok embeddings_file
          | texts =>
              let* embeddings := model texts in
              Ok (Some embeddings)
          end
      end
  end.

(** The module-level state of [app.py]. *)
Record globals := Globals {
  db_questions : list question;
  db_embeddings : option (list row);
  embedding_model : option encoder
}.

Definition initial_globals : globals := Globals [] None None.

(** How a call of [load_database_and_create_embeddings] ends. *)
Inductive loaded :=
  | Returned (g : globals)
  | SystemExit              (* exit() *)
  | LoadRaised.             (* an exception that is not caught *)

(** [load_database_and_create_embeddings]. *)
Definition load_database_and_create_embeddings (store : store_file)
    (embeddings_file : option (list row)) : loaded :=
  match store with
  | NoStore => Returned initial_globals
  | BadStore => LoadRaised
  | Store questions =>
      match embeddings_file with
      | None => Returned (Globals questions None None)
      | Some embeddings =>
          if bool_decide (length questions ≠ length embeddings) then SystemExit
          else match load_model with
               | None => LoadRaised
               | Some model => Returned (Globals questions (Some embeddings) (Some model))
               end
      end
  end.

(** How the start of [app.py] ends. *)
Inductive startup :=
  | Serving (g : globals)   (* app.run is called *)
  | NotServing              (* the script ends without serving *)
  | Aborted.                (* exit() or an exception *)

(** The [__main__] block of [app.py]. *)
Definition start_app (store : store_file) (embeddings_file : option (list row)) : startup :=
  match load_database_and_create_embeddings store embeddings_file with
  | Returned g =>
      match db_questions g with
      | [] => NotServing
      | _ => Serving g
      end
  | SystemExit | LoadRaised => Aborted
  end.

End Scripts.

(** ** Whole runs *)

(** The records that the page loop accumulates for a file (none if it
    raises). *)
Definition file_output {image} (vlm : image → prompt → option (list question))
    (fmt : value → str) (file : str * document image) : list question :=
  match process_pages vlm fmt file.1 0 (pdf_to_images file.2) ([], None) with
  | Ok (all_questions, _) => all_questions
  | Raise => []
  end.

(** A record is the first one of an answer to a continuation prompt. *)
Definition is_merged_completion {image} (vlm : image → prompt → option (list question))
    (q : question) : Prop :=
  ∃ img fragment rest, vlm img (CONTINUATION_PROMPT fragment) = Some (q :: rest).

(** Sample request and parser for the extraction call: the answer to image 1
    is a fenced block, to image 2 a bare text, the request for image 3
    raises; the parser knows one text. *)
Definition demo_chat (img : nat) (p : prompt) : option str :=
  match img with
  | 1 => Some (u "  ```json" ++ [LF] ++ u "[Q1]" ++ [LF] ++ u "```" ++ [LF])
  | 2 => Some (u "[Q1]")
  | 3 => None
  | _ => Some (u "```json[Q1]")
  end%nat.

Definition demo_json_loads (s : str) : option (list question) :=
  if bool_decide (strip s = u "[Q1]") then Some [q_full] else None.

(** A sample embedding model: the row of a text is its length. *)
Definition demo_encode : list value → result (list nat) :=
  λ texts, Ok ((λ v, match v with VStr s => length s | _ => 0%nat end) <$> texts).

(** * Properties *)

(** ** Text operations *)

Lemma startswith_prefix (s p : str) : startswith s p = true ↔ p `prefix_of` s.
Proof.
  revert s. induction p as [|a p IH]; intros [|b s]; simpl.
  - split; [intros _; apply prefix_nil | done].
  - split; [intros _; apply prefix_nil | done].
  - split; [done | intros Hp; by apply prefix_nil_not in Hp].
  - rewrite andb_true_iff, N.eqb_eq, IH. split.
    + intros [-> Hp]. by apply prefix_cons.
    + intros Hp. split.
      * by apply prefix_cons_inv_1 in Hp.
      * by apply prefix_cons_inv_2 in Hp.
Qed.





Lemma lstrip_snoc_space (s : str) (c : char) :
  isspace c = true →
  lstrip (s ++ [c]) = match lstrip s with [] => [] | _ => lstrip s ++ [c] end.
Proof.
  intros Hc. induction s as [|x s IH]; cbn [app lstrip].
  - by rewrite Hc.
  - by destruct (isspace x).
Qed.

(** A line is stripped to the same text with or without its terminator, so
    [readlines] may leave the terminators out. *)
Lemma strip_line_terminator (line : str) : strip (line ++ [LF]) = strip line.
Proof.
  unfold strip. rewrite lstrip_snoc_space by done.
  destruct (lstrip line) as [|x s]; [done|].
  by rewrite rev_app_distr.
Qed.

Lemma existsb_elem_of {A} (f : A → bool) (l : list A) :
  existsb f l = true ↔ ∃ x, x ∈ l ∧ f x = true.
Proof.
  rewrite existsb_exists. by setoid_rewrite list_elem_of_In.
Qed.

Lemma options_is_none_spec (q : question) :
  options_is_none q = true ↔ options_absent_or_null q.
Proof.
  unfold options_is_none, options_absent_or_null.
  destruct (q !! "options") as [[]|];
    (split; [intros H; first [discriminate | auto] | intros [H|H]; congruence]).
Qed.

(** ** The incompleteness heuristic *)





(** A well-typed stem never makes the test raise. *)
Lemma is_question_incomplete_total (q : question) (stem : str) :
  get_or_empty q "stem_text" = VStr stem →
  ∃ b, is_question_incomplete q = Ok b.
Proof.
  intros Hstem. unfold is_question_incomplete. rewrite Hstem.
  destruct (existsb (contains (last_chars 10 stem)) choice_markers && options_is_none q),
    (existsb (endswith stem) dangling_tokens); eauto.
Qed.

(** ** The page loop *)

Section PipelineFacts.

Context {image : Type}.
Variable vlm : image → prompt → option (list question).
Variable fmt : value → str.

Implicit Types (q first : question) (rest all_questions : list question).
Implicit Types (buffer : option question) (page_results : option (list question)).
Implicit Types (test : question → result bool) (pdf_filename : str) (page_num : Z).

Lemma merged_completion_candidates buffer page_results :
  merged_completion buffer page_results ++ candidates buffer page_results
  = default [] page_results.
Proof.
  destruct page_results as [[|first rest]|]; simpl; try done.
  by destruct (truthy buffer).
Qed.

Lemma removelast_snoc_last {A} (l : list A) (x : A) :
  last l = Some x → l = removelast l ++ [x].
Proof.
  intros H. destruct (last_Some l x) as [[l' ->] _]; [done|].
  by rewrite removelast_last.
Qed.

(** A page without records leaves the loop state as it is. *)
Lemma page_body_with_empty test pdf_filename page_num page_results (st : loop_state) :
  page_results = None ∨ page_results = Some [] →
  page_body_with fmt test pdf_filename page_num page_results st = Ok st.
Proof. intros [-> | ->]; by destruct st. Qed.

(** The body in terms of the merged completion and the candidates. *)
Lemma page_body_with_unfold test pdf_filename page_num page_results all_questions buffer :
  page_body_with fmt test pdf_filename page_num page_results (all_questions, buffer) =
  let merged := merged_completion buffer page_results in
  let cands := candidates buffer page_results in
  let buffer := if bool_decide (merged = []) then buffer else None in
  match last cands with
  | Some q =>
      let* incomplete := test q in
      if incomplete : bool
      then Ok (all_questions ++ merged ++
                 (add_metadata fmt pdf_filename page_num <$> removelast cands), Some q)
      else Ok (all_questions ++ merged ++
                 (add_metadata fmt pdf_filename page_num <$> cands), buffer)
  | None => Ok (all_questions ++ merged, buffer)
  end.
Proof.
  destruct page_results as [[|first rest]|]; simpl.
  - by rewrite app_nil_r.
  - destruct (truthy buffer); simpl.
    + destruct (last rest) as [q|] eqn:Hlast; simpl.
      * destruct (test q) as [[]|]; simpl; by rewrite <- ?app_assoc.
      * apply last_None in Hlast as ->. simpl. by rewrite app_nil_r.
    + destruct (last (first :: rest)) as [q|] eqn:Hlast; simpl.
      * destruct (test q) as [[]|]; simpl; done.
      * by apply last_None in Hlast.
  - by rewrite app_nil_r.
Qed.


(** A record that is judged incomplete has a stem, so a buffered fragment is
    never the empty dictionary and always counts as true. *)
Lemma incomplete_is_truthy q :
  is_question_incomplete q = Ok true → truthy (Some q) = true.
Proof.
  intros Hq. unfold truthy. apply negb_true_iff, bool_decide_eq_false.
  intros ->. vm_compute in Hq. discriminate.
Qed.

Lemma page_body_buffer_truthy pdf_filename page_num page_results all_questions buffer
    all_questions' buffer' :
  buffer = None ∨ truthy buffer = true →
  page_body fmt pdf_filename page_num page_results (all_questions, buffer)
    = Ok (all_questions', buffer') →
  buffer' = None ∨ truthy buffer' = true.
Proof.
  intros Hbuffer. unfold page_body. rewrite page_body_with_unfold. cbn zeta.
  destruct (last (candidates buffer page_results)) as [q|].
  - destruct (is_question_incomplete q) as [[]|] eqn:Hq; simpl; intros [= <- <-].
    + right. by apply incomplete_is_truthy.
    + by case_bool_decide; [|left].
  - intros [= <- <-]. by case_bool_decide; [|left].
Qed.

Lemma process_pages_buffer_truthy pdf_filename i (image_paths : list image)
    all_questions buffer all_questions' buffer' :
  buffer = None ∨ truthy buffer = true →
  process_pages vlm fmt pdf_filename i image_paths (all_questions, buffer)
    = Ok (all_questions', buffer') →
  buffer' = None ∨ truthy buffer' = true.
Proof.
  revert i all_questions buffer.
  induction image_paths as [|img rest IH]; intros i all_questions buffer Hbuffer.
  - by intros [= <- <-].
  - unfold process_pages. cbn [process_pages_with]. cbn [snd]. fold (page_body fmt).
    destruct (page_body fmt pdf_filename (Z.of_nat i + 1)
                (vlm img (current_prompt buffer)) (all_questions, buffer))
      as [[all1 buffer1]|] eqn:Hbody; simpl; [|done].
    apply page_body_buffer_truthy in Hbody; [|done]. by apply IH.
Qed.


(** C10.  When a fragment is pending and the page yields a non-empty list,
    the first record is appended to the file's output as it is and the rest
    of the list is handled as a page of its own: the outcome is that of the
    remaining records with any test that agrees with the incompleteness
    test on them, whatever that test says of the first record.  In
    particular a page that yields the completion alone appends it and
    leaves no fragment pending, even if the completion is itself
    incomplete. *)
Theorem merged_completion_not_tested test pdf_filename page_num first rest
    all_questions fragment :
  truthy (Some fragment) = true →
  (∀ c, c ∈ rest → test c = is_question_incomplete c) →
  page_body fmt pdf_filename page_num (Some (first :: rest)) (all_questions, Some fragment) =
    (let* (emitted, buffer) :=
       page_body_with fmt test pdf_filename page_num (Some rest) ([], None) in
     Ok (all_questions ++ first :: emitted, buffer)) ∧
  page_body fmt pdf_filename page_num (Some [first]) (all_questions, Some fragment) =
    Ok (all_questions ++ [first], None).
Proof.
  intros Htruthy Hext. split.
  - unfold page_body. rewrite !page_body_with_unfold.
    cbn [merged_completion candidates]. rewrite Htruthy.
    destruct rest as [|r rest']; [done|].
    cbn [merged_completion candidates truthy].
    destruct (last (r :: rest')) as [c|] eqn:Hlast; simpl.
    + rewrite (Hext c) by (by apply last_Some_elem_of).
      destruct (is_question_incomplete c) as [[]|]; simpl; try done.
    + by apply last_None in Hlast.
  - unfold page_body. rewrite page_body_with_unfold.
    cbn [merged_completion candidates]. by rewrite Htruthy.
Qed.

(** ** The whole file *)

Lemma process_pages_with_app test pdf_filename i (pages1 pages2 : list image) (st : loop_state) :
  process_pages_with vlm fmt test pdf_filename i (pages1 ++ pages2) st =
  let* st := process_pages_with vlm fmt test pdf_filename i pages1 st in
  process_pages_with vlm fmt test pdf_filename (i + length pages1) pages2 st.
Proof.
  revert i st. induction pages1 as [|img pages1 IH]; intros i st; simpl.
  - by rewrite Nat.add_0_r.
  - destruct (page_body_with fmt test pdf_filename _ _ st) as [st'|]; simpl; [|done].
    rewrite IH. by replace (S i + length pages1)%nat with (i + S (length pages1))%nat by lia.
Qed.

(** C2, as the code has it.  A page whose extraction yields nothing (the
    call failed or returned an empty list) while a fragment is pending
    appends nothing to the file's output and leaves the fragment pending,
    unchanged; the following page is processed exactly as if it came
    directly after the fragment's page, apart from its page number, and so
    is requested with the continuation prompt built from that fragment. *)
Theorem empty_page_keeps_pending pdf_filename page_num i img (rest : list image)
    page_results all_questions fragment :
  page_results = None ∨ page_results = Some [] →
  vlm img (current_prompt (Some fragment)) = page_results →
  page_body fmt pdf_filename page_num page_results (all_questions, Some fragment)
    = Ok (all_questions, Some fragment) ∧
  process_pages vlm fmt pdf_filename i (img :: rest) (all_questions, Some fragment)
    = process_pages vlm fmt pdf_filename (S i) rest (all_questions, Some fragment) ∧
  (truthy (Some fragment) = true →
   current_prompt (Some fragment) = CONTINUATION_PROMPT fragment).
Proof.
  intros Hempty Hvlm. split; [|split].
  - by apply page_body_with_empty.
  - unfold process_pages. cbn [process_pages_with]. cbn [snd]. rewrite Hvlm.
    by rewrite page_body_with_empty.
  - unfold current_prompt. by intros ->.
Qed.

(** *** What a page appends *)

Lemma Forall2_fmap_diag {A B} (P : A → B → Prop) (f : A → B) (l : list A) :
  (∀ x, P x (f x)) → Forall2 P l (f <$> l).
Proof. intros HP. induction l; constructor; auto. Qed.

Lemma Forall2_refl_diag {A} (P : A → A → Prop) (l : list A) :
  (∀ x, P x x) → Forall2 P l l.
Proof. intros HP. induction l; constructor; auto. Qed.

Lemma emitted_in_order_intro pdf_filename page_num (merged kept raw : list question) :
  merged ++ kept `prefix_of` raw →
  emitted_in_order fmt pdf_filename page_num raw
    (merged ++ (add_metadata fmt pdf_filename page_num <$> kept)).
Proof.
  intros Hpre. exists (merged ++ kept). split; [done|].
  apply Forall2_app.
  - apply Forall2_refl_diag. auto.
  - apply Forall2_fmap_diag. auto.
Qed.

(** A page appends to the output, in order, records of its own extraction
    result. *)
Lemma page_body_emitted pdf_filename page_num page_results all_questions buffer
    all_questions' buffer' :
  page_body fmt pdf_filename page_num page_results (all_questions, buffer)
    = Ok (all_questions', buffer') →
  ∃ chunk, all_questions' = all_questions ++ chunk ∧
    emitted_in_order fmt pdf_filename page_num (default [] page_results) chunk.
Proof.
  unfold page_body. rewrite page_body_with_unfold. cbn zeta.
  rewrite <- (merged_completion_candidates buffer page_results).
  set (merged := merged_completion buffer page_results).
  set (cands := candidates buffer page_results).
  destruct (last cands) as [q|] eqn:Hlast.
  - destruct (is_question_incomplete q) as [[]|]; simpl; intros [= <- <-].
    + eexists. split; [done|]. apply emitted_in_order_intro.
      rewrite (removelast_snoc_last cands q Hlast) at 2.
      rewrite app_assoc. by apply prefix_app_r.
    + eexists. split; [done|]. by apply emitted_in_order_intro.
  - intros [= <- <-]. exists merged. split; [done|].
    rewrite <- (app_nil_r merged) at 2.
    change [] with (add_metadata fmt pdf_filename page_num <$> []).
    apply emitted_in_order_intro. rewrite app_nil_r. by apply prefix_app_r.
Qed.

(** The output of a file is the concatenation, in page order, of what its
    pages append. *)
Lemma process_pages_emitted pdf_filename i (image_paths : list image)
    all_questions buffer all_questions' buffer' :
  process_pages vlm fmt pdf_filename i image_paths (all_questions, buffer)
    = Ok (all_questions', buffer') →
  let trace := page_results_of_run vlm fmt pdf_filename i image_paths (all_questions, buffer) in
  trace.*1 = (λ k, Z.of_nat k + 1) <$> seq i (length image_paths) ∧
  ∃ chunks, all_questions' = all_questions ++ concat chunks ∧
    Forall2 (λ page chunk, emitted_in_order fmt pdf_filename page.1 page.2 chunk)
      trace chunks.
Proof.
  revert i all_questions buffer.
  induction image_paths as [|img rest IH]; intros i all_questions buffer; cbn zeta.
  - intros [= <- <-]. split; [done|]. exists []. simpl. by rewrite app_nil_r.
  - unfold process_pages. cbn [process_pages_with page_results_of_run]. cbn [snd].
    fold (page_body fmt).
    destruct (page_body fmt pdf_filename (Z.of_nat i + 1)
                (vlm img (current_prompt buffer)) (all_questions, buffer))
      as [[all1 buffer1]|] eqn:Hbody; simpl; [|done].
    intros Hrest. apply page_body_emitted in Hbody as (chunk & -> & Hchunk).
    apply IH in Hrest as (Hnums & chunks & -> & Hchunks). split.
    + cbn [length seq]. f_equal. exact Hnums.
    + exists (chunk :: chunks). split; [by rewrite <- app_assoc|].
      by constructor.
Qed.

(** *** One file of the file loop *)

Lemma process_file_processed processed_files pdf_filename (doc : document image) d :
  pdf_filename ∈ processed_files →
  process_file vlm fmt processed_files pdf_filename doc d = Ok d.
Proof. intros Hin. unfold process_file. by rewrite bool_decide_eq_true_2. Qed.

Lemma process_pages_nil pdf_filename i (st : loop_state) :
  process_pages vlm fmt pdf_filename i [] st = Ok st.
Proof. done. Qed.

(** A file that is not in the ledger: its pages are processed, and its
    records, if any, are written and the file is logged. *)
Lemma process_file_unfold processed_files pdf_filename (doc : document image) d :
  pdf_filename ∉ processed_files →
  process_file vlm fmt processed_files pdf_filename doc d =
  let* (all_questions, _) :=
    process_pages vlm fmt pdf_filename 0 (pdf_to_images doc) ([], None) in
  match all_questions with
  | [] => Ok d
  | _ =>
      let* json := append_to_json_file all_questions (result_json d) in
      if utf8_encodable pdf_filename
      then Ok (Disk json (log_processed_file pdf_filename (processed_log d)))
      else Raise
  end.
Proof.
  intros Hin. unfold process_file. rewrite bool_decide_eq_false_2 by done.
  by destruct (pdf_to_images doc).
Qed.

Lemma append_to_json_file_Ok data f json :
  append_to_json_file data f = Ok json → json = JsonList (stored f ++ data).
Proof. destruct f; simpl; try done; case_match; congruence. Qed.

Lemma append_to_json_file_Ok_encodable data f json :
  append_to_json_file data f = Ok json →
  forallb question_encodable (stored f ++ data) = true.
Proof. destruct f; simpl; try done; case_match; congruence. Qed.

(** Records whose text can be encoded are appended to every store but valid
    JSON that is not a list and a file that is not UTF-8. *)
Lemma append_to_json_file_encodable data f :
  f ≠ JsonOther → f ≠ NotUtf8 →
  forallb question_encodable (stored f ++ data) = true →
  append_to_json_file data f = Ok (JsonList (stored f ++ data)).
Proof. intros H1 H2 Henc. destruct f; simpl in *; try done; by rewrite Henc. Qed.

(** A failed append fails again on the store it left, and leaves it as it
    is, when the records that were stored could be encoded. *)
Lemma append_to_json_file_Raise_again data f :
  append_to_json_file data f = Raise →
  forallb question_encodable (stored f) = true →
  append_to_json_file data (append_to_json_file_on_raise f) = Raise ∧
  append_to_json_file_on_raise (append_to_json_file_on_raise f)
    = append_to_json_file_on_raise f.
Proof.
  intros Hraise Hstored.
  assert (Hdata : f ≠ JsonOther → f ≠ NotUtf8 → forallb question_encodable data = false).
  { intros H1 H2. destruct (forallb question_encodable data) eqn:Hdata; [|done].
    rewrite append_to_json_file_encodable in Hraise; [done..|].
    by rewrite forallb_app, Hstored, Hdata. }
  destruct f; simpl; try done; by rewrite Hdata.
Qed.

Lemma process_file_Ok processed_files pdf_filename (doc : document image) d d' :
  pdf_filename ∉ processed_files →
  process_file vlm fmt processed_files pdf_filename doc d = Ok d' →
  ∃ all_questions buffer,
    process_pages vlm fmt pdf_filename 0 (pdf_to_images doc) ([], None)
      = Ok (all_questions, buffer) ∧
    (all_questions = [] ∧ d' = d ∨
     all_questions ≠ [] ∧
     d' = Disk (JsonList (stored (result_json d) ++ all_questions))
               (log_processed_file pdf_filename (processed_log d))).
Proof.
  intros Hin. rewrite process_file_unfold by done.
  destruct (process_pages vlm fmt pdf_filename 0 (pdf_to_images doc) ([], None))
    as [[all_questions buffer]|]; simpl; [|done].
  intros H. exists all_questions, buffer. split; [done|].
  destruct all_questions as [|q l]; [left; split; congruence|right].
  split; [done|].
  destruct (append_to_json_file (q :: l) (result_json d)) as [json|] eqn:Hjson;
    simpl in H; [|done].
  apply append_to_json_file_Ok in Hjson as ->.
  destruct (utf8_encodable pdf_filename); congruence.
Qed.


(** C7.  The records that one file adds to the store are, in this order:
    for each page in page order (pages are numbered 1, 2, ...), records of
    that page's extraction result in their original relative order.  Each
    stored record is the extracted record itself or that record with its
    metadata attached, and the records stored for a page are those of an
    initial part of the page's result. *)
Theorem store_keeps_page_order processed_files pdf_filename (doc : document image) d d' :
  pdf_filename ∉ processed_files →
  process_file vlm fmt processed_files pdf_filename doc d = Ok d' →
  let trace := page_results_of_run vlm fmt pdf_filename 0 (pdf_to_images doc) ([], None) in
  trace.*1 = (λ k, Z.of_nat k + 1) <$> seq 0 (length (pdf_to_images doc)) ∧
  ∃ chunks,
    Forall2 (λ page chunk, emitted_in_order fmt pdf_filename page.1 page.2 chunk)
      trace chunks ∧
    (concat chunks = [] ∧ d' = d ∨
     result_json d' = JsonList (stored (result_json d) ++ concat chunks)).
Proof.
  intros Hin Hfile.
  apply process_file_Ok in Hfile as (all_questions & buffer & Hpages & Hd); [|done].
  apply process_pages_emitted in Hpages as (Hnums & chunks & Hall & Hchunks).
  simpl in Hall. subst all_questions. split; [done|].
  exists chunks. split; [done|].
  destruct Hd as [[? ->]|[_ ->]]; auto.
Qed.


(** *** Metadata *)

Lemma add_metadata_source_pdf pdf_filename page_num q :
  add_metadata fmt pdf_filename page_num q !! "source_pdf" = Some (VStr pdf_filename).
Proof. unfold add_metadata. by simplify_map_eq. Qed.

Lemma add_metadata_source_page pdf_filename page_num q :
  add_metadata fmt pdf_filename page_num q !! "source_page" = Some (VInt page_num).
Proof. unfold add_metadata. by simplify_map_eq. Qed.

(** The search text is formatted from the fields of the record as
    extracted: the two source fields set before it do not take part. *)
Lemma add_metadata_searchable_text pdf_filename page_num q :
  add_metadata fmt pdf_filename page_num q !! "searchable_text" =
  Some (VStr (py_str fmt (get_or_empty q "section_title") ++ u " " ++
              py_str fmt (get_or_empty q "question_number") ++ u ": " ++
              py_str fmt (get_or_empty q "stem_text"))).
Proof.
  unfold add_metadata. cbn zeta. rewrite lookup_insert_eq.
  unfold searchable_text, get_or_empty. by simplify_map_eq.
Qed.

(** A null field is written as the text ["None"]. *)
Lemma searchable_text_null_title pdf_filename page_num q number stem :
  q !! "section_title" = Some VNone →
  get_or_empty q "question_number" = VStr number →
  get_or_empty q "stem_text" = VStr stem →
  add_metadata fmt pdf_filename page_num q !! "searchable_text" =
  Some (VStr (u "None " ++ number ++ u ": " ++ stem)).
Proof.
  intros Ht Hn Hs. rewrite add_metadata_searchable_text, Hn, Hs.
  unfold get_or_empty. by rewrite Ht.
Qed.

Lemma add_metadata_has_metadata pdf_filename page_num q :
  has_metadata (add_metadata fmt pdf_filename page_num q).
Proof.
  unfold has_metadata.
  rewrite add_metadata_source_pdf, add_metadata_source_page,
    add_metadata_searchable_text. eauto.
Qed.

(** The records a page appends: the merged completion as extracted, then
    the candidates that are kept, with metadata. *)
Lemma page_body_Ok pdf_filename page_num page_results all_questions buffer
    all_questions' buffer' :
  page_body fmt pdf_filename page_num page_results (all_questions, buffer)
    = Ok (all_questions', buffer') →
  ∃ kept, kept `prefix_of` candidates buffer page_results ∧
    all_questions' = all_questions ++ merged_completion buffer page_results ++
                       (add_metadata fmt pdf_filename page_num <$> kept).
Proof.
  unfold page_body. rewrite page_body_with_unfold. cbn zeta.
  set (merged := merged_completion buffer page_results).
  set (cands := candidates buffer page_results).
  destruct (last cands) as [q|] eqn:Hlast.
  - destruct (is_question_incomplete q) as [[]|]; simpl; intros [= <- <-].
    + exists (removelast cands). split; [|done].
      rewrite (removelast_snoc_last cands q Hlast) at 2. by apply prefix_app_r.
    + by exists cands.
  - intros [= <- <-]. exists []. split; [apply prefix_nil|].
    simpl. by rewrite app_nil_r.
Qed.

(** Every record of a file's output carries the metadata, except a merged
    completion: the first record of an answer to a continuation prompt. *)
Lemma output_has_metadata_or_is_merged pdf_filename i (image_paths : list image)
    all_questions buffer all_questions' buffer' :
  let merged q := ∃ img fragment rest,
    vlm img (CONTINUATION_PROMPT fragment) = Some (q :: rest) in
  process_pages vlm fmt pdf_filename i image_paths (all_questions, buffer)
    = Ok (all_questions', buffer') →
  Forall (λ q, has_metadata q ∨ merged q) all_questions →
  Forall (λ q, has_metadata q ∨ merged q) all_questions'.
Proof.
  cbn zeta. revert i all_questions buffer.
  induction image_paths as [|img rest IH]; intros i all_questions buffer.
  - by intros [= <- <-].
  - unfold process_pages. cbn [process_pages_with]. cbn [snd]. fold (page_body fmt).
    destruct (page_body fmt pdf_filename (Z.of_nat i + 1)
                (vlm img (current_prompt buffer)) (all_questions, buffer))
      as [[all1 buffer1]|] eqn:Hbody; simpl; [|done].
    intros Hrest Hall.
    apply page_body_Ok in Hbody as (kept & _ & ->).
    apply IH in Hrest; [done|].
    rewrite !Forall_app. split; [done|split].
    + unfold merged_completion.
      destruct (vlm img (current_prompt buffer)) as [[|first l]|] eqn:Hvlm; try done.
      destruct (truthy buffer) eqn:Htruthy; [|done].
      apply Forall_singleton. right. exists img.
      destruct buffer as [fragment|]; [|done].
      unfold current_prompt in Hvlm. rewrite Htruthy in Hvlm.
      by exists fragment, l.
    + apply Forall_fmap, Forall_forall. intros q _. left.
      apply add_metadata_has_metadata.
Qed.

(** C9, as the code has it.  Every candidate that the page step finalizes in
    its metadata loop (every appended record other than a merged
    completion) gets as search text its section title, a space, its
    question number, a colon and a space, and its stem text, where a field
    that is absent counts as the empty text. *)
Theorem searchable_text_of_finalized pdf_filename page_num page_results
    all_questions buffer all_questions' buffer' :
  page_body fmt pdf_filename page_num page_results (all_questions, buffer)
    = Ok (all_questions', buffer') →
  ∃ kept, kept `prefix_of` candidates buffer page_results ∧
    all_questions' = all_questions ++ merged_completion buffer page_results ++
                       (add_metadata fmt pdf_filename page_num <$> kept) ∧
    ∀ q title number stem,
      q ∈ kept →
      get_or_empty q "section_title" = VStr title →
      get_or_empty q "question_number" = VStr number →
      get_or_empty q "stem_text" = VStr stem →
      add_metadata fmt pdf_filename page_num q !! "searchable_text" =
      Some (VStr (title ++ u " " ++ number ++ u ": " ++ stem)).
Proof.
  intros Hbody. apply page_body_Ok in Hbody as (kept & Hpre & ->).
  exists kept. split; [done|]. split; [done|].
  intros q title number stem _ Ht Hn Hs.
  by rewrite add_metadata_searchable_text, Ht, Hn, Hs.
Qed.

(** *** Rendering failures *)

(** A document that cannot be opened, or whose first page cannot be
    rasterized, is skipped: nothing is written. *)
Lemma render_failure_before_first_image processed_files pdf_filename
    (pages : list (option image)) d :
  process_file vlm fmt processed_files pdf_filename None d = Ok d ∧
  process_file vlm fmt processed_files pdf_filename (Some (None :: pages)) d = Ok d.
Proof. unfold process_file; split; by case_bool_decide. Qed.

(** A page that cannot be rasterized ends the rendering: the images of the
    pages before it are returned, and those are what the file loop goes on
    to process. *)
Lemma pdf_to_images_until_failure (before : list image) (after : list (option image)) :
  pdf_to_images (Some ((Some <$> before) ++ None :: after)) = before.
Proof.
  unfold pdf_to_images. induction before as [|img before IH]; [done|].
  rewrite fmap_cons. cbn [app render_pages]. by rewrite IH.
Qed.

(** *** The store *)

(** Valid JSON that is not a list is neither of the cases of C8 below:
    [existing_data.extend] raises. *)
Lemma append_to_json_file_not_a_list data :
  append_to_json_file data JsonOther = Raise.
Proof. done. Qed.

(** On a store that holds a well-formed list, appending records whose text,
    like that of the stored records, can be encoded yields the stored list
    followed by the new records, every stored record staying what and where
    it was. *)
Lemma append_to_json_file_extends data existing :
  forallb question_encodable (existing ++ data) = true →
  append_to_json_file data (JsonList existing) = Ok (JsonList (existing ++ data)) ∧
  take (length existing) (existing ++ data) = existing ∧
  drop (length existing) (existing ++ data) = data.
Proof.
  intros Henc. split; [by apply append_to_json_file_encodable|].
  split; [by rewrite take_app_length|by rewrite drop_app_length].
Qed.

(** On a store that is absent or is not valid JSON, such records are
    written alone. *)
Lemma append_to_json_file_overwrites data :
  forallb question_encodable data = true →
  append_to_json_file data Absent = Ok (JsonList data) ∧
  append_to_json_file data NotJson = Ok (JsonList data).
Proof. intros Henc. split; by apply append_to_json_file_encodable. Qed.

End PipelineFacts.

(** ** The ledger *)

Lemma readlines_from_nonempty (c : char) (s : str) :
  readlines_from false (c :: s) ≠ [].
Proof.
  simpl. destruct (c =? LF)%N; [done|]. destruct (c =? CR)%N; [done|].
  by destruct (readlines_from false s).
Qed.

Lemma readlines_from_app_LF (after_cr : bool) (s t : str) :
  readlines_from after_cr (s ++ LF :: t) =
  readlines_from after_cr (s ++ [LF]) ++ readlines_from false t.
Proof.
  revert after_cr. induction s as [|c s IH]; intros after_cr.
  - simpl. by destruct after_cr.
  - cbn [app readlines_from].
    destruct (c =? LF)%N; [destruct after_cr; by rewrite IH|].
    destruct (c =? CR)%N; [by rewrite IH|].
    rewrite IH.
    destruct (readlines_from false (s ++ [LF])) as [|l ls] eqn:Hs; [|done].
    destruct s; by apply readlines_from_nonempty in Hs.
Qed.

Lemma readlines_one_line (name : str) :
  LF ∉ name → CR ∉ name → readlines (name ++ [LF]) = [name].
Proof.
  unfold readlines. induction name as [|c name IH]; intros Hlf Hcr; [done|].
  apply not_elem_of_cons in Hlf as [Hlf Hlf'], Hcr as [Hcr Hcr'].
  cbn [app readlines_from].
  rewrite (proj2 (N.eqb_neq c LF)), (proj2 (N.eqb_neq c CR)) by congruence.
  by rewrite IH.
Qed.

(** Logging a clean name on a terminated ledger adds that name, and nothing
    else, to what [load_processed_files] reads. *)
Lemma load_log_processed_file (name : str) (log : option str) :
  terminated log → clean_name name →
  load_processed_files (log_processed_file name log)
  = load_processed_files log ∪ {[name]}.
Proof.
  intros Hterm (_ & Hstrip & Hlf & Hcr). unfold log_processed_file, load_processed_files.
  destruct log as [content|]; simpl.
  - destruct Hterm as [->|[content' ->]]; simpl.
    + fold (readlines (name ++ [LF])). rewrite (readlines_one_line name) by done.
      simpl. by rewrite Hstrip, union_empty_r_L, union_empty_l_L.
    + unfold readlines. rewrite <- app_assoc. simpl.
      rewrite readlines_from_app_LF. fold (readlines (name ++ [LF])).
      rewrite (readlines_one_line name) by done.
      rewrite fmap_app, list_to_set_app_L. simpl.
      by rewrite Hstrip, union_empty_r_L.
  - fold (readlines (name ++ [LF])). rewrite readlines_one_line by done.
    simpl. by rewrite Hstrip, union_empty_r_L, union_empty_l_L.
Qed.

Lemma log_processed_file_terminated (name : str) (log : option str) :
  terminated (log_processed_file name log).
Proof.
  unfold log_processed_file, terminated. right.
  exists (default [] log ++ name). by rewrite <- app_assoc.
Qed.

(** ** Running the pipeline again *)

Section Rerun.

Context {image : Type}.
Variable vlm : image → prompt → option (list question).
Variable fmt : value → str.

Implicit Types (files : list (str * document image)) (d : disk).
Implicit Types (processed_files : gset str).

(** What one iteration of the file loop can do to the files on disk. *)
Lemma process_file_step processed_files pdf_filename (doc : document image) d d' :
  process_file vlm fmt processed_files pdf_filename doc d = Ok d' →
  d' = d ∨
  ∃ all_questions,
    (pdf_filename ∉ processed_files) ∧
    d' = Disk (JsonList (stored (result_json d) ++ all_questions))
              (log_processed_file pdf_filename (processed_log d)).
Proof.
  destruct (decide (pdf_filename ∈ processed_files)) as [Hin|Hin].
  - rewrite process_file_processed by done. intros [= <-]. by left.
  - intros H. apply process_file_Ok in H as (all_questions & _ & _ & [[_ ->]|[_ ->]]);
      [by left| |done].
    right. by exists all_questions.
Qed.

Lemma log_processed_file_on_raise_same (log : option str) :
  terminated log →
  terminated (log_processed_file_on_raise log) ∧
  load_processed_files (log_processed_file_on_raise log) = load_processed_files log.
Proof. destruct log as [content|]; simpl; [done|]. split; [by left|done]. Qed.

(** An iteration that raises leaves the ledger listing what it listed. *)
Lemma process_file_on_raise_log pdf_filename (doc : document image) d :
  terminated (processed_log d) →
  terminated (processed_log (process_file_on_raise vlm fmt pdf_filename doc d)) ∧
  load_processed_files (processed_log (process_file_on_raise vlm fmt pdf_filename doc d))
    = load_processed_files (processed_log d).
Proof.
  intros Hterm. unfold process_file_on_raise.
  destruct (process_pages vlm fmt pdf_filename 0 (pdf_to_images doc) ([], None))
    as [[all_questions buffer]|]; [|done].
  destruct (append_to_json_file all_questions (result_json d)); [|done].
  cbn [processed_log]. by apply log_processed_file_on_raise_same.
Qed.

(** The ledger only grows during a run. *)
Lemma file_loop_ledger_grows processed_files files d d1 s1 :
  file_loop vlm fmt processed_files files d = (d1, s1) →
  terminated (processed_log d) →
  Forall clean_name files.*1 →
  terminated (processed_log d1) ∧
  load_processed_files (processed_log d) ⊆ load_processed_files (processed_log d1).
Proof.
  revert d. induction files as [|[pdf_filename doc] rest IH]; intros d; simpl.
  - intros [= <- <-]. done.
  - intros Hrun Hterm Hclean. apply Forall_cons in Hclean as [Hname Hclean].
    destruct (process_file vlm fmt processed_files pdf_filename doc d) as [d'|] eqn:Hfile.
    + apply process_file_step in Hfile as [->|(all_questions & _ & ->)].
      * by apply IH.
      * apply IH in Hrun as [Hterm1 Hsub];
          [|apply log_processed_file_terminated|done].
        split; [done|]. cbn [processed_log] in Hsub.
        rewrite load_log_processed_file in Hsub by done.
        intros x Hx. apply Hsub, elem_of_union. by left.
    + injection Hrun as <- <-.
      destruct (process_file_on_raise_log pdf_filename doc d Hterm) as [Hterm1 Hload].
      split; [done|]. by rewrite Hload.
Qed.

(** The records in the store stay encodable during a run. *)
Lemma process_file_keeps_encodable processed_files pdf_filename (doc : document image) d d' :
  process_file vlm fmt processed_files pdf_filename doc d = Ok d' →
  forallb question_encodable (stored (result_json d)) = true →
  forallb question_encodable (stored (result_json d')) = true.
Proof.
  destruct (decide (pdf_filename ∈ processed_files)) as [Hin|Hin].
  - rewrite process_file_processed by done. by intros [= <-].
  - rewrite process_file_unfold by done.
    destruct (process_pages vlm fmt pdf_filename 0 (pdf_to_images doc) ([], None))
      as [[all_questions buffer]|]; cbn [bind]; [|done].
    destruct all_questions as [|q l]; [by intros [= <-]|].
    destruct (append_to_json_file (q :: l) (result_json d)) as [json|] eqn:Hjson;
      cbn [bind]; [|done].
    destruct (utf8_encodable pdf_filename); [|done]. intros [= <-] _. cbn [result_json].
    pose proof (append_to_json_file_Ok_encodable _ _ _ Hjson) as Henc.
    apply append_to_json_file_Ok in Hjson as ->. done.
Qed.

Lemma rerun_file_loop processed_files files d d1 s1 :
  file_loop vlm fmt processed_files files d = (d1, s1) →
  terminated (processed_log d) →
  forallb question_encodable (stored (result_json d)) = true →
  Forall clean_name files.*1 →
  NoDup files.*1 →
  processed_files ⊆ load_processed_files (processed_log d) →
  (∀ name, name ∈ files.*1 → name ∈ load_processed_files (processed_log d) →
           name ∈ processed_files) →
  file_loop vlm fmt (load_processed_files (processed_log d1)) files d1 = (d1, s1).
Proof.
  revert d. induction files as [|[pdf_filename doc] rest IH]; intros d.
  - simpl. by intros [= <- <-].
  - cbn [file_loop]. intros Hrun Hterm Hstore Hclean Hnodup Hsub Hinv.
    rewrite fmap_cons in Hclean, Hnodup, Hinv. cbn [fst] in Hclean, Hnodup, Hinv.
    apply Forall_cons in Hclean as [Hname Hclean].
    apply NoDup_cons in Hnodup as [Hfresh Hnodup].
    set (P1 := load_processed_files (processed_log d1)).
    (* the file is not in the ledger the run started with, and is not yet
       in the ledger on disk *)
    assert (Hnotyet : pdf_filename ∉ processed_files →
                      pdf_filename ∉ load_processed_files (processed_log d)).
    { intros Hnot Hin. apply Hnot, Hinv; [apply elem_of_cons; by left|done]. }
    (* when the run goes on from an unchanged disk *)
    assert (Hsame : file_loop vlm fmt processed_files rest d = (d1, s1) →
              file_loop vlm fmt P1 rest d1 = (d1, s1) ∧
              load_processed_files (processed_log d) ⊆ P1).
    { intros Hrest. split.
      - apply (IH d); try done.
        intros name Hin. apply Hinv, elem_of_cons. by right.
      - by apply (file_loop_ledger_grows _ _ _ _ _ Hrest). }
    destruct (decide (pdf_filename ∈ processed_files)) as [Hin|Hin].
    + rewrite process_file_processed in Hrun by done.
      apply Hsame in Hrun as [Hrest Hgrow].
      rewrite process_file_processed; [done|]. by apply Hgrow, Hsub.
    + rewrite process_file_unfold in Hrun by done.
      unfold process_file_on_raise in Hrun.
      destruct (process_pages vlm fmt pdf_filename 0 (pdf_to_images doc) ([], None))
        as [[all_questions buffer]|] eqn:Hpages; cbn [bind] in Hrun.
      * destruct all_questions as [|q l].
        -- apply Hsame in Hrun as [Hrest Hgrow].
           destruct (decide (pdf_filename ∈ P1)) as [Hin1|Hin1].
           ++ by rewrite process_file_processed.
           ++ rewrite process_file_unfold by done. by rewrite Hpages.
        -- destruct (append_to_json_file (q :: l) (result_json d)) as [json|] eqn:Hjson;
             cbn [bind] in Hrun.
           ++ destruct Hname as [Henc Hname'].
              rewrite Henc in Hrun.
              assert (Hname : clean_name pdf_filename) by done.
              assert (Hlog : load_processed_files
                               (log_processed_file pdf_filename (processed_log d))
                             = load_processed_files (processed_log d) ∪ {[pdf_filename]})
                by (by apply load_log_processed_file).
              pose proof (file_loop_ledger_grows _ _ _ _ _ Hrun
                            (log_processed_file_terminated _ _) Hclean) as [_ Hgrow].
              cbn [processed_log] in Hgrow. rewrite Hlog in Hgrow.
              apply IH in Hrun; try done.
              ** rewrite process_file_processed; [done|].
                 apply Hgrow, elem_of_union. right. by apply elem_of_singleton.
              ** apply log_processed_file_terminated.
              ** cbn [result_json].
                 pose proof (append_to_json_file_Ok_encodable _ _ _ Hjson) as Hall.
                 apply append_to_json_file_Ok in Hjson as ->. done.
              ** cbn [processed_log]. rewrite Hlog.
                 intros x Hx. apply elem_of_union. left. by apply Hsub.
              ** cbn [processed_log]. rewrite Hlog.
                 intros name Hrest [Hold|Hnew%elem_of_singleton]%elem_of_union.
                 --- apply Hinv; [apply elem_of_cons; by right|done].
                 --- by subst name.
           ++ injection Hrun as <- <-. cbn [processed_log].
              destruct (append_to_json_file_Raise_again _ _ Hjson Hstore) as [Hagain Hidem].
              rewrite process_file_unfold by (by apply Hnotyet).
              rewrite Hpages. cbn [bind result_json]. rewrite Hagain. cbn [bind].
              unfold process_file_on_raise. rewrite Hpages. cbn [result_json processed_log].
              by rewrite Hagain, Hidem.
      * injection Hrun as <- <-.
        rewrite process_file_unfold by (by apply Hnotyet).
        rewrite Hpages. cbn [bind]. unfold process_file_on_raise. by rewrite Hpages.
Qed.

(** X20.  Idempotence for file names that the ledger takes and reads back as
    written, on a store whose records can be written: with the extraction
    service and the renderer fixed, a second run over the same files leaves
    the store and the ledger as the first run left them (and ends the same
    way). *)
Theorem rerun_changes_nothing files d d1 s1 :
  terminated (processed_log d) →
  forallb question_encodable (stored (result_json d)) = true →
  Forall clean_name files.*1 →
  NoDup files.*1 →
  main vlm fmt files d = (d1, s1) →
  main vlm fmt files d1 = (d1, s1).
Proof.
  intros Hterm Hstore Hclean Hnodup. unfold main.
  destruct files as [|file rest]; [by intros [= <- <-]|].
  intros Hrun. by apply rerun_file_loop in Hrun.
Qed.

End Rerun.

(** ** The example runs *)

(** The design document's scenario shape: a fragment at the end of page 1 is
    completed by the first record of page 2. *)
Example run_fragment_then_completion :
  process_pages demo_vlm demo_fmt exam_pdf 0 [3; 4]%nat ([], None)
  = Ok ([q_merged], None).
Proof. vm_compute. reflexivity. Qed.

(** The scenario of the design document: the store gains the three questions
    in order and the ledger gains the file. *)
Example run_design_scenario :
  main demo_vlm demo_fmt [(exam_pdf, Some [Some 6; Some 7]%nat)] empty_disk
  = (Disk (JsonList [q_full_stored exam_pdf; q_merged;
                     add_metadata demo_fmt exam_pdf 2 q_other])
          (Some (exam_pdf ++ [LF])), Finished).
Proof. vm_compute. reflexivity. Qed.

(** A question cut twice: the record returned for the second page is stored
    although it is still cut off, and the third page starts afresh. *)
Example run_question_over_three_pages :
  is_question_incomplete q_still_cut = Ok true ∧
  process_pages demo_vlm demo_fmt exam_pdf 0 [3; 5; 4]%nat ([], None)
  = Ok ([q_still_cut; add_metadata demo_fmt exam_pdf 3 q_other], None).
Proof. split; vm_compute; reflexivity. Qed.

(** C1.  The code at a file whose second page completes a fragment.  The
    completion is the only record stored for the file, and it has none of
    the three metadata fields. *)
Theorem merged_completion_stored_without_metadata :
  main demo_vlm demo_fmt [(exam_pdf, Some [Some 3; Some 4]%nat)] empty_disk
  = (Disk (JsonList [q_merged]) (Some (exam_pdf ++ [LF])), Finished) ∧
  q_merged !! "source_pdf" = None ∧
  q_merged !! "source_page" = None ∧
  q_merged !! "searchable_text" = None ∧
  ¬ has_metadata q_merged.
Proof.
  split; [vm_compute; reflexivity|]. split; [vm_compute; reflexivity|].
  split; [vm_compute; reflexivity|]. split; [vm_compute; reflexivity|].
  intros [[v Hv] _]. vm_compute in Hv. discriminate.
Qed.

(** C3.  The code at a two-page document whose second page cannot be
    rasterized.  The record of the first page is stored and the file is
    logged as processed. *)
Theorem partial_render_is_stored_and_logged :
  pdf_to_images (Some [Some 1; None]%nat) = [1%nat] ∧
  main demo_vlm demo_fmt [(exam_pdf, Some [Some 1; None]%nat)] empty_disk
  = (Disk (JsonList [q_full_stored exam_pdf]) (Some (exam_pdf ++ [LF])), Finished) ∧
  exam_pdf ∈ load_processed_files (Some (exam_pdf ++ [LF])).
Proof.
  split; [done|]. split; [vm_compute; reflexivity|].
  apply (bool_decide_unpack _). vm_compute. exact I.
Qed.

(** C6.  The code at a directory holding one file whose name starts with a
    space.  The first run stores its record and logs the name; the ledger
    reads the name back without the space, so the second run processes the
    file again and the store holds the record twice. *)
Theorem rerun_duplicates_file_with_leading_space :
  let files := [(spaced_pdf, Some [Some 1%nat])] in
  let d1 := Disk (JsonList [q_full_stored spaced_pdf]) (Some (spaced_pdf ++ [LF])) in
  let d2 := Disk (JsonList [q_full_stored spaced_pdf; q_full_stored spaced_pdf])
                 (Some (spaced_pdf ++ [LF] ++ spaced_pdf ++ [LF])) in
  main demo_vlm demo_fmt files empty_disk = (d1, Finished) ∧
  load_processed_files (processed_log d1) = {[ exam_pdf ]} ∧
  (spaced_pdf ∉ load_processed_files (processed_log d1)) ∧
  main demo_vlm demo_fmt files d1 = (d2, Finished).
Proof.
  cbn zeta. split; [vm_compute; reflexivity|]. split; [vm_compute; reflexivity|].
  split; [|vm_compute; reflexivity].
  apply (bool_decide_unpack _). vm_compute. exact I.
Qed.

(** C8.  The code at a store that is not UTF-8 text, and at a record with
    an unpaired surrogate.  On the first, reading the store raises (only
    [JSONDecodeError] is caught): the new records are not written and the run
    stops.  On the second, the store is present and well-formed; [json.dump]
    raises after the file has been emptied, and the run stops with a store
    that does not parse and holds none of the records it held. *)
Theorem append_to_json_file_misses_failures :
  let bad := add_metadata demo_fmt exam_pdf 1 q_surrogate in
  append_to_json_file [q_full_stored exam_pdf] NotUtf8 = Raise ∧
  main demo_vlm demo_fmt [(exam_pdf, Some [Some 1%nat])] (Disk NotUtf8 None)
  = (Disk NotUtf8 None, Crashed) ∧
  question_encodable q_other = true ∧
  question_encodable bad = false ∧
  append_to_json_file [bad] (JsonList [q_other]) = Raise ∧
  append_to_json_file_on_raise (JsonList [q_other]) = NotJson ∧
  main demo_vlm demo_fmt [(exam_pdf, Some [Some 8%nat])] (Disk (JsonList [q_other]) None)
  = (Disk NotJson None, Crashed) ∧
  ¬ [q_other] `prefix_of` stored NotJson.
Proof.
  cbn zeta. repeat (split; [vm_compute; reflexivity|]).
  intros Hprefix. apply prefix_length in Hprefix. cbn in Hprefix. lia.
Qed.

(** A stem that is a list: the first rule applies to its last ten items, and
    the second rule raises. *)
Example list_stem_is_judged_or_raises :
  is_question_incomplete q_list_stem = Ok true ∧
  is_question_incomplete (delete "options" q_list_stem) = Ok true ∧
  is_question_incomplete (<[ "options" := VDict ∅ ]> q_list_stem) = Raise ∧
  is_question_incomplete {[ "stem_text" := VList [VStr (u "Which holds: A.")] ]} = Raise.
Proof. repeat split; vm_compute; reflexivity. Qed.

(** A file name that cannot be encoded, on a file whose only record is a
    merged completion: the store is written, writing the ledger raises, and
    a second run stores the record again. *)
Example rerun_after_failed_ledger_write :
  let files := [(latin1_pdf, Some [Some 3; Some 4]%nat)] in
  let d1 := Disk (JsonList [q_merged]) (Some []) in
  let d2 := Disk (JsonList [q_merged; q_merged]) (Some []) in
  utf8_encodable latin1_pdf = false ∧
  strip latin1_pdf = latin1_pdf ∧
  main demo_vlm demo_fmt files empty_disk = (d1, Crashed) ∧
  main demo_vlm demo_fmt files d1 = (d2, Crashed).
Proof. cbn zeta. repeat split; vm_compute; reflexivity. Qed.

(** A store that holds a record which cannot be written: the first run
    leaves a store that does not parse, which the second run overwrites. *)
Example rerun_after_failed_store_write :
  let files := [(exam_pdf, Some [Some 1%nat])] in
  let d1 := Disk NotJson None in
  let d2 := Disk (JsonList [q_full_stored exam_pdf]) (Some (exam_pdf ++ [LF])) in
  main demo_vlm demo_fmt files (Disk (JsonList [q_surrogate]) None) = (d1, Crashed) ∧
  main demo_vlm demo_fmt files d1 = (d2, Finished).
Proof. cbn zeta. split; vm_compute; reflexivity. Qed.

(** C2, as stated, fails on a three-page file whose first page ends with a
    fragment and whose second page yields nothing: after the second page the
    fragment is still pending, the third page is requested with the
    continuation prompt, and its first record is taken as the completion
    (with the base prompt the service would have returned [q_other]). *)
Lemma pending_fragment_survives_empty_page :
  truthy (Some q_fragment) = true ∧
  demo_vlm 2 (current_prompt (Some q_fragment)) = None ∧
  page_body demo_fmt exam_pdf 2 None ([], Some q_fragment) = Ok ([], Some q_fragment) ∧
  ¬ (∃ all_questions,
       page_body demo_fmt exam_pdf 2 None ([], Some q_fragment) = Ok (all_questions, None)) ∧
  process_pages demo_vlm demo_fmt exam_pdf 0 [3; 2]%nat ([], None)
    = Ok ([], Some q_fragment) ∧
  demo_vlm 4 VLM_PROMPT = Some [q_other] ∧
  process_pages demo_vlm demo_fmt exam_pdf 0 [3; 2; 4]%nat ([], None)
    = Ok ([q_merged], None).
Proof.
  split; [vm_compute; reflexivity|]. split; [reflexivity|].
  split; [reflexivity|]. split; [by intros [all_questions [=]]|].
  split; [vm_compute; reflexivity|]. split; [reflexivity|].
  vm_compute; reflexivity.
Qed.

(** The amended statement at the failed second page of the run above. *)
Lemma empty_page_keeps_pending_witness :
  (@None (list question) = None ∨ @None (list question) = Some []) ∧
  demo_vlm 2 (current_prompt (Some q_fragment)) = None ∧
  page_body demo_fmt exam_pdf 2 None ([], Some q_fragment) = Ok ([], Some q_fragment) ∧
  process_pages demo_vlm demo_fmt exam_pdf 1 [2; 4]%nat ([], Some q_fragment)
    = process_pages demo_vlm demo_fmt exam_pdf 2 [4]%nat ([], Some q_fragment) ∧
  (truthy (Some q_fragment) = true →
   current_prompt (Some q_fragment) = CONTINUATION_PROMPT q_fragment).
Proof.
  split; [by left|]. split; [reflexivity|].
  apply (empty_page_keeps_pending demo_vlm demo_fmt exam_pdf 2 1 2%nat [4%nat]
           None [] q_fragment); [by left | reflexivity].
Defined.




(** The order theorem at the design document's two-page scenario. *)
Lemma store_keeps_page_order_witness :
  let doc := Some [Some 6; Some 7]%nat in
  let d' := Disk (JsonList [q_full_stored exam_pdf; q_merged;
                            add_metadata demo_fmt exam_pdf 2 q_other])
                 (Some (exam_pdf ++ [LF])) in
  let trace := page_results_of_run demo_vlm demo_fmt exam_pdf 0 (pdf_to_images doc) ([], None) in
  (exam_pdf ∉ (∅ : gset str)) ∧
  process_file demo_vlm demo_fmt ∅ exam_pdf doc empty_disk = Ok d' ∧
  trace.*1 = (λ k, Z.of_nat k + 1) <$> seq 0 (length (pdf_to_images doc)) ∧
  ∃ chunks,
    Forall2 (λ page chunk, emitted_in_order demo_fmt exam_pdf page.1 page.2 chunk)
      trace chunks ∧
    (concat chunks = [] ∧ d' = empty_disk ∨
     result_json d' = JsonList (stored (result_json empty_disk) ++ concat chunks)).
Proof.
  cbn zeta. split; [apply not_elem_of_empty|]. split; [vm_compute; reflexivity|].
  apply (store_keeps_page_order demo_vlm demo_fmt ∅ exam_pdf
           (Some [Some 6; Some 7]%nat) empty_disk);
    [apply not_elem_of_empty | vm_compute; reflexivity].
Defined.

(** C9, as stated, fails on [q_full]: the stored search text has a space and
    a colon between the three parts, so it is not their concatenation; and a
    null section title is written as ["None"]. *)
Lemma searchable_text_has_separators :
  q_full !! "section_title" = Some (VStr (u "Part I")) ∧
  q_full !! "question_number" = Some (VStr (u "1")) ∧
  q_full !! "stem_text" = Some (VStr (u "Compute 1+1.")) ∧
  add_metadata demo_fmt exam_pdf 1 q_full !! "searchable_text"
    = Some (VStr (u "Part I 1: Compute 1+1.")) ∧
  add_metadata demo_fmt exam_pdf 1 q_full !! "searchable_text"
    ≠ Some (VStr (u "Part I" ++ u "1" ++ u "Compute 1+1.")) ∧
  add_metadata demo_fmt exam_pdf 1 q_null_title !! "searchable_text"
    = Some (VStr (u "None 4: Solve.")).
Proof.
  repeat split; try (vm_compute; reflexivity).
  vm_compute. discriminate.
Qed.

(** The amended statement at a page that yields [q_full]. *)
Lemma searchable_text_of_finalized_witness :
  page_body demo_fmt exam_pdf 1 (Some [q_full]) ([], None)
    = Ok ([q_full_stored exam_pdf], None) ∧
  ∃ kept, kept `prefix_of` candidates None (Some [q_full]) ∧
    [q_full_stored exam_pdf] = [] ++ merged_completion None (Some [q_full]) ++
                       (add_metadata demo_fmt exam_pdf 1 <$> kept) ∧
    ∀ q title number stem,
      q ∈ kept →
      get_or_empty q "section_title" = VStr title →
      get_or_empty q "question_number" = VStr number →
      get_or_empty q "stem_text" = VStr stem →
      add_metadata demo_fmt exam_pdf 1 q !! "searchable_text" =
      Some (VStr (title ++ u " " ++ number ++ u ": " ++ stem)).
Proof.
  split; [vm_compute; reflexivity|].
  apply (searchable_text_of_finalized demo_fmt exam_pdf 1 (Some [q_full]) [] None
           [q_full_stored exam_pdf] None).
  vm_compute; reflexivity.
Defined.

(** The completion [q_still_cut] is itself incomplete; a test that raises on it
    changes nothing. *)
Lemma merged_completion_not_tested_witness :
  let test := test_except_on q_still_cut in
  truthy (Some q_fragment) = true ∧
  (∀ c, c ∈ [q_other] → test c = is_question_incomplete c) ∧
  page_body demo_fmt exam_pdf 2 (Some [q_still_cut; q_other]) ([], Some q_fragment) =
    (let* (emitted, buffer) :=
       page_body_with demo_fmt test exam_pdf 2 (Some [q_other]) ([], None) in
     Ok ([] ++ q_still_cut :: emitted, buffer)) ∧
  page_body demo_fmt exam_pdf 2 (Some [q_still_cut]) ([], Some q_fragment) =
    Ok ([] ++ [q_still_cut], None).
Proof.
  cbn zeta.
  assert (H1 : truthy (Some q_fragment) = true) by (vm_compute; reflexivity).
  assert (H2 : ∀ c, c ∈ [q_other] →
                    test_except_on q_still_cut c = is_question_incomplete c).
  { intros c ->%list_elem_of_singleton. vm_compute. reflexivity. }
  split; [exact H1|]. split; [exact H2|].
  exact (merged_completion_not_tested demo_fmt _ exam_pdf 2 q_still_cut [q_other] []
           q_fragment H1 H2).
Defined.

(** * Further properties of the code *)

(** ** The incompleteness test at ill-typed and empty stems *)

Lemma rule1_list_spec (q : question) (items : list value) :
  existsb (λ letter, bool_decide (VStr letter ∈ last_items 10 items)) choice_markers
    && options_is_none q = true ↔
  options_absent_or_null q ∧
  ∃ letter, letter ∈ choice_markers ∧ VStr letter ∈ last_items 10 items.
Proof.
  rewrite andb_true_iff, existsb_elem_of, options_is_none_spec.
  setoid_rewrite bool_decide_eq_true. tauto.
Qed.

(** X1.  [is_question_incomplete] raises exactly on a record whose
    [stem_text] key is present with a value that is not text, unless that
    value is a list with one of the markers among its last ten items and the
    options are null or absent: on such a list, and on no other list, it
    returns [True].  On every other record it returns a verdict. *)
Theorem is_question_incomplete_raises_iff (q : question) :
  (is_question_incomplete q = Raise ↔
   ∃ v, q !! "stem_text" = Some v ∧ (∀ stem, v ≠ VStr stem) ∧
        ¬ ∃ items letter, v = VList items ∧ options_absent_or_null q ∧
                          letter ∈ choice_markers ∧ VStr letter ∈ last_items 10 items) ∧
  (∀ items, q !! "stem_text" = Some (VList items) →
     (is_question_incomplete q = Ok true ↔
      options_absent_or_null q ∧
      ∃ letter, letter ∈ choice_markers ∧ VStr letter ∈ last_items 10 items) ∧
     is_question_incomplete q ≠ Ok false).
Proof.
  split.
  - split.
    + intros Hraise. destruct (q !! "stem_text") as [v|] eqn:Hstem.
      * exists v. split; [done|]. split.
        -- intros stem ->.
           destruct (is_question_incomplete_total q stem) as [b Hb];
             [unfold get_or_empty; by rewrite Hstem|congruence].
        -- intros (items & letter & -> & Hnull & Hletter & Hin).
           unfold is_question_incomplete, get_or_empty in Hraise.
           rewrite Hstem in Hraise. cbn [default from_option id] in Hraise.
           rewrite (proj2 (rule1_list_spec q items)) in Hraise by eauto. done.
      * destruct (is_question_incomplete_total q []) as [b Hb];
          [unfold get_or_empty; by rewrite Hstem|congruence].
    + intros (v & Hstem & Hv & Hlist). unfold is_question_incomplete, get_or_empty.
      rewrite Hstem. cbn [default from_option id].
      destruct v as [|stem| | | | |items]; try done; [by destruct (Hv stem)|].
      destruct (existsb _ choice_markers && options_is_none q) eqn:Hrule; [|done].
      apply rule1_list_spec in Hrule as [Hnull (letter & Hletter & Hin)].
      destruct Hlist. by exists items, letter.
  - intros items Hstem. unfold is_question_incomplete, get_or_empty.
    rewrite Hstem. cbn [default from_option id].
    rewrite <- rule1_list_spec.
    destruct (existsb _ choice_markers && options_is_none q);
      (split; [split; congruence|congruence]).
Qed.

(** X2.  A record without a [stem_text] key, or with an empty stem, is
    judged complete, whatever its options are. *)
Theorem empty_stem_is_complete (q : question) :
  get_or_empty q "stem_text" = VStr [] → is_question_incomplete q = Ok false.
Proof.
  intros Hstem. unfold is_question_incomplete. rewrite Hstem.
  by destruct (options_is_none q).
Qed.

(** ** Finalization touches three keys only *)

(** X3.  Finalizing a record sets [source_pdf] and [source_page] to the file
    and page at hand, replacing whatever the service returned under these
    keys, and leaves every key other than the three metadata keys as it
    was. *)
Theorem add_metadata_keeps_fields (fmt : value → str)
    (pdf_filename : str) (page_num : Z) (q : question) :
  add_metadata fmt pdf_filename page_num q !! "source_pdf" = Some (VStr pdf_filename) ∧
  add_metadata fmt pdf_filename page_num q !! "source_page" = Some (VInt page_num) ∧
  ∀ key, key ≠ "source_pdf" → key ≠ "source_page" → key ≠ "searchable_text" →
         add_metadata fmt pdf_filename page_num q !! key = q !! key.
Proof.
  split; [apply add_metadata_source_pdf|]. split; [apply add_metadata_source_page|].
  intros key H1 H2 H3. unfold add_metadata. cbn zeta.
  by rewrite !lookup_insert_ne.
Qed.

(** ** Rendering *)

(** X4.  [pdf_to_images] returns one image per page, in page order, when
    every page can be rasterized; the images of the pages before the first
    one that cannot, when there is one; and no image when the document
    cannot be opened. *)
Theorem pdf_to_images_spec {image} (images : list image) (after : list (option image)) :
  pdf_to_images (Some (Some <$> images)) = images ∧
  pdf_to_images (Some ((Some <$> images) ++ None :: after)) = images ∧
  pdf_to_images (@None (list (option image))) = [].
Proof.
  split; [|split; [apply pdf_to_images_until_failure|done]].
  unfold pdf_to_images. induction images as [|img images IH]; [done|].
  rewrite fmap_cons. cbn [render_pages]. by rewrite IH.
Qed.

(** ** The store *)

(** X5.  Two appends in a row amount to one append of both lists of records,
    on every store (on valid JSON that is not a list both sides raise); and
    after a successful append the store is a well-formed list. *)
Theorem append_to_json_file_twice (data1 data2 : list question) (f : json_file) :
  (let* json := append_to_json_file data1 f in append_to_json_file data2 json)
  = append_to_json_file (data1 ++ data2) f ∧
  ∀ json, append_to_json_file data1 f = Ok json → json = JsonList (stored json).
Proof.
  split.
  - assert (Hunfold : ∀ data, f ≠ JsonOther → f ≠ NotUtf8 →
              append_to_json_file data f
              = if forallb question_encodable (stored f ++ data)
                then Ok (JsonList (stored f ++ data)) else Raise)
      by (intros data; by destruct f).
    assert (Hcases : f = JsonOther ∨ f = NotUtf8 ∨ f ≠ JsonOther ∧ f ≠ NotUtf8)
      by (destruct f; auto).
    destruct Hcases as [->| [->| [H1 H2]]]; [done|done|].
    rewrite !Hunfold by done. rewrite (app_assoc (stored f)).
    rewrite (forallb_app _ (stored f ++ data1)).
    destruct (forallb question_encodable (stored f ++ data1)) eqn:Henc; [|done].
    cbn [bind append_to_json_file stored andb]. by rewrite forallb_app, Henc.
  - intros json Hjson. apply append_to_json_file_Ok in Hjson as ->. done.
Qed.

(** ** The answer of the extraction service *)

Lemma lstrip_spaces_app (ws s : str) :
  Forall (λ c, isspace c = true) ws → lstrip (ws ++ s) = lstrip s.
Proof.
  induction 1 as [|c ws Hc _ IH]; [done|]. cbn [app lstrip]. by rewrite Hc.
Qed.

(** Stripping removes the white space around a text that starts and ends
    with other characters. *)
Lemma strip_surrounded (ws1 ws2 mid : str) (c e : char) :
  Forall (λ c, isspace c = true) ws1 →
  Forall (λ c, isspace c = true) ws2 →
  isspace c = false → isspace e = false →
  strip (ws1 ++ (c :: mid ++ [e]) ++ ws2) = c :: mid ++ [e].
Proof.
  intros H1 H2 Hc He. unfold strip.
  rewrite lstrip_spaces_app by done. cbn [app lstrip]. rewrite Hc.
  change (c :: (mid ++ [e]) ++ ws2) with ((c :: mid ++ [e]) ++ ws2).
  rewrite rev_app_distr, lstrip_spaces_app by (by apply Forall_rev).
  change (c :: mid ++ [e]) with ((c :: mid) ++ [e]).
  rewrite rev_app_distr. cbn [rev app lstrip]. rewrite He.
  change (e :: rev mid ++ [c]) with ([e] ++ rev (c :: mid)).
  by rewrite rev_app_distr, rev_involutive.
Qed.

(** X6.  An answer that consists of an opening fence, a body and a closing
    fence, with any white space around the block, is handed to the parser as
    the body alone; [call_vlm_api] then returns what the parser makes of the
    body. *)
Theorem fenced_answer_is_unwrapped {image} (chat : image → prompt → option str)
    (json_loads : str → option (list question)) (img : image) (p : prompt)
    (ws1 ws2 body : str) :
  Forall (λ c, isspace c = true) ws1 →
  Forall (λ c, isspace c = true) ws2 →
  chat img p = Some (ws1 ++ (json_fence ++ body ++ closing_fence) ++ ws2) →
  clean_content (ws1 ++ (json_fence ++ body ++ closing_fence) ++ ws2) = body ∧
  call_vlm_api chat json_loads img p = json_loads body.
Proof.
  intros H1 H2 Hchat.
  assert (Hclean : clean_content (ws1 ++ (json_fence ++ body ++ closing_fence) ++ ws2)
                   = body).
  { unfold clean_content.
    assert (Hstrip : strip (ws1 ++ (json_fence ++ body ++ closing_fence) ++ ws2)
                     = json_fence ++ body ++ closing_fence).
    { assert (Hshape : json_fence ++ body ++ closing_fence
                       = 96%N :: (u "``json" ++ body ++ u "``") ++ [96%N])
        by (by rewrite <- !app_assoc).
      rewrite Hshape. by apply strip_surrounded. }
    rewrite Hstrip.
    rewrite (proj2 (startswith_prefix _ _)) by (by apply prefix_app_r).
    unfold slice_7_minus_3. rewrite !length_app.
    change (length json_fence) with 7%nat. change (length closing_fence) with 3%nat.
    replace (7 + (length body + 3) - 3)%nat with (length (json_fence ++ body))
      by (rewrite length_app; change (length json_fence) with 7%nat; lia).
    rewrite app_assoc, take_app_length.
    change 7%nat with (length json_fence). by rewrite drop_app_length. }
  split; [done|]. unfold call_vlm_api. by rewrite Hchat, Hclean.
Qed.

(** X7.  The closing fence is never looked at: when the stripped answer
    starts with the opening fence, what follows the fence loses its last
    three characters, whatever they are, and an answer with fewer than three
    characters after the fence becomes the empty text. *)
Theorem unclosed_fence_loses_three (content rest : str) :
  strip content = json_fence ++ rest →
  clean_content content = take (length rest - 3) rest.
Proof.
  intros Hstrip. unfold clean_content. rewrite Hstrip.
  rewrite (proj2 (startswith_prefix _ _)) by (by apply prefix_app_r).
  unfold slice_7_minus_3. rewrite length_app.
  change (length json_fence) with 7%nat.
  destruct (decide (3 ≤ length rest)%nat) as [Hlen|Hlen].
  - replace (7 + length rest - 3)%nat with (length json_fence + (length rest - 3))%nat
      by (change (length json_fence) with 7%nat; lia).
    rewrite take_app_add'; [|done].
    change 7%nat with (length json_fence). by rewrite drop_app_length.
  - replace (length rest - 3)%nat with 0%nat by lia. rewrite take_0.
    apply nil_length_inv. rewrite length_drop, length_take, length_app.
    change (length json_fence) with 7%nat. lia.
Qed.

(** ** The page loop and the file loop *)

Section RunFacts.

Context {image : Type}.
Variable vlm : image → prompt → option (list question).
Variable fmt : value → str.

Implicit Types (q : question) (all_questions : list question).
Implicit Types (buffer : option question) (pdf_filename : str).
Implicit Types (files : list (str * document image)) (d : disk).

(** X8.  Every record that the page loop adds for a file either is a merged
    completion (the first record of an answer to a continuation prompt), or
    names the file in [source_pdf], has in [source_page] the number of one of
    the pages processed, and has a [searchable_text]. *)
Theorem stored_provenance pdf_filename i (image_paths : list image)
    all_questions buffer all_questions' buffer' :
  process_pages vlm fmt pdf_filename i image_paths (all_questions, buffer)
    = Ok (all_questions', buffer') →
  ∃ added, all_questions' = all_questions ++ added ∧
    Forall (λ q, is_merged_completion vlm q ∨
                 (q !! "source_pdf" = Some (VStr pdf_filename) ∧
                  (∃ k, (i < k ≤ i + length image_paths)%nat ∧
                        q !! "source_page" = Some (VInt (Z.of_nat k))) ∧
                  is_Some (q !! "searchable_text"))) added.
Proof.
  revert i all_questions buffer.
  induction image_paths as [|img rest IH]; intros i all_questions buffer.
  - intros [= <- <-]. exists []. by rewrite app_nil_r.
  - unfold process_pages. cbn [process_pages_with]. cbn [snd]. fold (page_body fmt).
    destruct (page_body fmt pdf_filename (Z.of_nat i + 1)
                (vlm img (current_prompt buffer)) (all_questions, buffer))
      as [[all1 buffer1]|] eqn:Hbody; simpl; [|done].
    intros Hrest. apply page_body_Ok in Hbody as (kept & _ & ->).
    apply IH in Hrest as (added & -> & Hadded).
    exists ((merged_completion buffer (vlm img (current_prompt buffer)) ++
             (add_metadata fmt pdf_filename (Z.of_nat i + 1) <$> kept)) ++ added).
    split; [by rewrite <- !app_assoc|].
    rewrite !Forall_app. split; [split|].
    + unfold merged_completion.
      destruct (vlm img (current_prompt buffer)) as [[|first l]|] eqn:Hvlm; try done.
      destruct (truthy buffer) eqn:Htruthy; [|done].
      apply Forall_singleton. left. exists img.
      destruct buffer as [fragment|]; [|done].
      unfold current_prompt in Hvlm. rewrite Htruthy in Hvlm.
      by exists fragment, l.
    + apply Forall_fmap, Forall_forall. intros q _. right. simpl.
      rewrite add_metadata_source_pdf, add_metadata_source_page,
        add_metadata_searchable_text.
      split; [done|]. split; [|eauto].
      exists (S i). split; [lia|]. do 2 f_equal. lia.
    + eapply Forall_impl; [exact Hadded|]. intros q [Hm|(Hpdf & (k & Hk & Hpage) & Htext)];
        [by left|right].
      split; [done|]. split; [|done]. exists k. split; [|done]. simpl. lia.
Qed.

(** The pending fragment is a record that was judged incomplete. *)
Lemma page_body_buffer_incomplete pdf_filename page_num page_results all_questions buffer
    all_questions' buffer' :
  (∀ q, buffer = Some q → is_question_incomplete q = Ok true) →
  page_body fmt pdf_filename page_num page_results (all_questions, buffer)
    = Ok (all_questions', buffer') →
  ∀ q, buffer' = Some q → is_question_incomplete q = Ok true.
Proof.
  intros Hbuffer. unfold page_body. rewrite page_body_with_unfold. cbn zeta.
  destruct (last (candidates buffer page_results)) as [c|].
  - destruct (is_question_incomplete c) as [[]|] eqn:Hc; simpl; intros [= <- <-].
    + by intros q [= <-].
    + by case_bool_decide.
  - intros [= <- <-]. by case_bool_decide.
Qed.

(** X9.  A fragment that is pending after any number of pages is a record
    that the incompleteness test judged incomplete; it is not the empty
    dictionary, so the next page is requested with the continuation prompt
    built from it. *)
Theorem pending_fragment_was_judged_incomplete pdf_filename i (image_paths : list image)
    all_questions all_questions' q :
  process_pages vlm fmt pdf_filename i image_paths (all_questions, None)
    = Ok (all_questions', Some q) →
  is_question_incomplete q = Ok true ∧
  current_prompt (Some q) = CONTINUATION_PROMPT q.
Proof.
  intros Hrun.
  assert (Hq : is_question_incomplete q = Ok true).
  { assert (Hgen : ∀ buffer buffer',
              (∀ q, buffer = Some q → is_question_incomplete q = Ok true) →
              process_pages vlm fmt pdf_filename i image_paths (all_questions, buffer)
                = Ok (all_questions', buffer') →
              ∀ q, buffer' = Some q → is_question_incomplete q = Ok true).
    { clear Hrun. revert i all_questions.
      induction image_paths as [|img rest IH]; intros i all_questions buffer buffer' Hbuffer.
      - by intros [= <- <-].
      - unfold process_pages. cbn [process_pages_with]. cbn [snd]. fold (page_body fmt).
        destruct (page_body fmt pdf_filename (Z.of_nat i + 1)
                    (vlm img (current_prompt buffer)) (all_questions, buffer))
          as [[all1 buffer1]|] eqn:Hbody; simpl; [|done].
        apply (IH (S i) all1 buffer1).
        by eapply page_body_buffer_incomplete. }
    by eapply (Hgen None (Some q)). }
  split; [done|]. unfold current_prompt. by rewrite incomplete_is_truthy.
Qed.

(** Pages that yield nothing leave the loop state as it is. *)
Lemma process_pages_nothing_extracted pdf_filename i (image_paths : list image)
    (st : loop_state) :
  (∀ img p, vlm img p = None ∨ vlm img p = Some []) →
  process_pages vlm fmt pdf_filename i image_paths st = Ok st.
Proof.
  intros Hvlm. revert i. induction image_paths as [|img rest IH]; intros i; [done|].
  unfold process_pages. cbn [process_pages_with].
  rewrite page_body_with_empty by apply Hvlm. apply IH.
Qed.

(** X10.  When the extraction service yields nothing for any page (it is
    down, or every answer fails to parse or is empty), a run writes nothing:
    no record is stored and no file is logged, so every file is taken up
    again by the next run. *)
Theorem nothing_extracted_nothing_written files d :
  (∀ img p, vlm img p = None ∨ vlm img p = Some []) →
  main vlm fmt files d = (d, Finished).
Proof.
  intros Hvlm. unfold main. destruct files as [|file files']; [done|].
  generalize (file :: files'). clear file files'.
  generalize (load_processed_files (processed_log d)). intros processed_files files.
  induction files as [|[pdf_filename doc] rest IH]; [done|]. cbn [file_loop].
  destruct (decide (pdf_filename ∈ processed_files)) as [Hin|Hin].
  - by rewrite process_file_processed.
  - rewrite process_file_unfold by done.
    by rewrite process_pages_nothing_extracted.
Qed.

(** X11.  Files whose names the ledger lists are not touched: a run over
    such files alone renders nothing, asks the service nothing and leaves the
    store and the ledger as they are. *)
Theorem logged_files_are_skipped files d :
  (∀ file, file ∈ files → file.1 ∈ load_processed_files (processed_log d)) →
  main vlm fmt files d = (d, Finished).
Proof.
  unfold main. destruct files as [|file files']; [done|].
  generalize (file :: files'). clear file files'.
  generalize (load_processed_files (processed_log d)). intros processed_files files Hin.
  induction files as [|[pdf_filename doc] rest IH]; [done|]. cbn [file_loop].
  rewrite process_file_processed.
  - apply IH. intros file Hfile. apply Hin, elem_of_cons. by right.
  - apply (Hin (pdf_filename, doc)), elem_of_cons. by left.
Qed.

Lemma file_loop_only_appends processed_files files d d1 s1 :
  file_loop vlm fmt processed_files files d = (d1, s1) →
  default [] (processed_log d) `prefix_of` default [] (processed_log d1) ∧
  (stored (result_json d) `prefix_of` stored (result_json d1) ∨
   s1 = Crashed ∧ result_json d1 = NotJson).
Proof.
  revert d. induction files as [|[pdf_filename doc] rest IH]; intros d; cbn [file_loop].
  - intros [= <- <-]. split; [done|by left].
  - destruct (process_file vlm fmt processed_files pdf_filename doc d) as [d'|] eqn:Hfile.
    + intros Hrun. apply IH in Hrun as [Hlog Hstore].
      apply process_file_step in Hfile as [->|(all_questions & _ & ->)]; [done|].
      cbn [result_json processed_log stored log_processed_file default from_option id]
        in Hstore, Hlog.
      split.
      * etrans; [|exact Hlog]. by apply prefix_app_r.
      * destruct Hstore as [Hstore|Hcrash]; [left|by right].
        etrans; [|exact Hstore]. by apply prefix_app_r.
    + intros [= <- <-]. unfold process_file_on_raise.
      destruct (process_pages vlm fmt pdf_filename 0 (pdf_to_images doc) ([], None))
        as [[all_questions buffer]|]; [|split; [done|by left]].
      destruct (append_to_json_file all_questions (result_json d)) as [json|] eqn:Hjson.
      * apply append_to_json_file_Ok in Hjson as ->.
        cbn [result_json processed_log stored]. split.
        -- by destruct (processed_log d).
        -- left. by apply prefix_app_r.
      * cbn [result_json processed_log]. split; [done|].
        destruct (result_json d); cbn [append_to_json_file_on_raise stored];
          first [by left | by right].
Qed.

(** X12.  A run never takes anything out of the ledger: its previous text
    is still the beginning of the ledger, however the run ends.  The records
    that were in the store are still there, unchanged and at the same
    positions, unless the run has crashed and left a store that does not
    parse (an exception while the store was being rewritten). *)
Theorem main_only_appends files d d1 s1 :
  main vlm fmt files d = (d1, s1) →
  default [] (processed_log d) `prefix_of` default [] (processed_log d1) ∧
  (stored (result_json d) `prefix_of` stored (result_json d1) ∨
   s1 = Crashed ∧ result_json d1 = NotJson).
Proof.
  unfold main. destruct files as [|file files'].
  - intros [= <- <-]. split; [done|by left].
  - apply file_loop_only_appends.
Qed.

Lemma file_loop_finished processed_files files d d1 :
  file_loop vlm fmt processed_files files d = (d1, Finished) →
  let new := filter (λ file, file.1 ∉ processed_files) files in
  stored (result_json d1)
    = stored (result_json d) ++ concat (file_output vlm fmt <$> new) ∧
  default [] (processed_log d1)
    = default [] (processed_log d) ++
      concat ((λ file, file.1 ++ [LF]) <$>
              filter (λ file, file_output vlm fmt file ≠ []) new).
Proof.
  cbn zeta. revert d.
  induction files as [|[pdf_filename doc] rest IH]; intros d; cbn [file_loop].
  - intros [= <-]. simpl. by rewrite !app_nil_r.
  - destruct (process_file vlm fmt processed_files pdf_filename doc d) as [d'|] eqn:Hfile;
      [|done].
    intros Hrun. apply IH in Hrun as [Hstore Hlog].
    destruct (decide (pdf_filename ∈ processed_files)) as [Hin|Hin].
    + rewrite process_file_processed in Hfile by done. injection Hfile as <-.
      rewrite filter_cons_False by (simpl; by intros ?). done.
    + rewrite filter_cons_True by done.
      apply process_file_Ok in Hfile as (all_questions & buffer & Hpages & Hd); [|done].
      assert (Hout : file_output vlm fmt (pdf_filename, doc) = all_questions)
        by (unfold file_output; simpl; by rewrite Hpages).
      rewrite fmap_cons. cbn [concat]. rewrite Hout.
      destruct Hd as [[-> ->]|[Hne ->]].
      * rewrite filter_cons_False by (rewrite Hout; by intros ?). done.
      * rewrite filter_cons_True by (by rewrite Hout).
        rewrite fmap_cons. cbn [concat fst].
        cbn [result_json processed_log stored log_processed_file default from_option id]
          in Hstore, Hlog.
        rewrite Hstore, Hlog. by rewrite <- !app_assoc.
Qed.

(** X13.  What a run that finishes has written: the store has gained the
    records accumulated for the files that the ledger did not list, file
    after file in the order in which the files were processed, and the
    ledger has gained, in the same order, one line for each of those files
    that gave at least one record. *)
Theorem finished_run_store files d d1 :
  main vlm fmt files d = (d1, Finished) →
  let new := filter (λ file, file.1 ∉ load_processed_files (processed_log d)) files in
  stored (result_json d1)
    = stored (result_json d) ++ concat (file_output vlm fmt <$> new) ∧
  default [] (processed_log d1)
    = default [] (processed_log d) ++
      concat ((λ file, file.1 ++ [LF]) <$>
              filter (λ file, file_output vlm fmt file ≠ []) new).
Proof.
  unfold main. destruct files as [|file files'].
  - intros [= <-]. simpl. by rewrite !app_nil_r.
  - apply file_loop_finished.
Qed.

(** X21.  The page loop composes: processing the pages of a file is
    processing an initial part of them and then, from the state reached and
    with the page numbers continuing, the rest; if the first part raises, so
    does the whole. *)
Theorem page_loop_splits pdf_filename i (pages1 pages2 : list image) (st : loop_state) :
  process_pages vlm fmt pdf_filename i (pages1 ++ pages2) st =
  let* st := process_pages vlm fmt pdf_filename i pages1 st in
  process_pages vlm fmt pdf_filename (i + length pages1) pages2 st.
Proof. apply process_pages_with_app. Qed.

End RunFacts.

(** ** The ledger, written and read back *)

(** X14.  After a file name that [strip] leaves as it is and that has no
    line break is logged on a ledger whose last line is terminated, the
    ledger lists that name, and besides it exactly the names it listed
    before. *)
Theorem ledger_round_trip (name : str) (log : option str) :
  terminated log → clean_name name →
  ∀ other, other ∈ load_processed_files (log_processed_file name log) ↔
           other = name ∨ other ∈ load_processed_files log.
Proof.
  intros Hterm Hname other. rewrite load_log_processed_file by done.
  rewrite elem_of_union, elem_of_singleton. tauto.
Qed.

(** ** The embedding script and the start of the application *)

Section ScriptFacts.

Context {row : Type}.
Implicit Types (load_model : option (@encoder row)) (model : @encoder row).
Implicit Types (store : store_file) (questions : list question).
Implicit Types (embeddings_file : option (list row)) (rows : list row).

(** X15.  When [prepare_embeddings.py] ends without an exception, either it
    has left the embeddings file as it was, which happens exactly when there
    is no store or the store is an empty list (the model having loaded), or
    the store holds at least one record and the file now holds what the model
    returned for the search texts of all records, one text per record in
    store order. *)
Theorem prepare_embeddings_outcome load_model store embeddings_file embeddings_file' :
  prepare_embeddings load_model store embeddings_file = Ok embeddings_file' →
  (embeddings_file' = embeddings_file ∧
   (store = NoStore ∨ store = Store [] ∧ is_Some load_model)) ∨
  (∃ questions model rows,
     store = Store questions ∧ questions ≠ [] ∧ load_model = Some model ∧
     length (searchable_texts questions) = length questions ∧
     model (searchable_texts questions) = Ok rows ∧
     embeddings_file' = Some rows).
Proof.
  unfold prepare_embeddings.
  destruct store as [| |questions]; [intros [= <-]; left; auto|done|].
  destruct load_model as [model|]; [|done].
  destruct questions as [|q questions].
  - intros [= <-]. left. split; [done|]. right. eauto.
  - cbn [searchable_texts fmap list_fmap].
    destruct (model _) as [rows|] eqn:Hrows; [|done].
    intros [= <-]. right. exists (q :: questions), model, rows.
    split; [done|]. split; [done|]. split; [done|].
    split; [unfold searchable_texts; by rewrite length_fmap|]. done.
Qed.

(** X16.  The text embedded for a record that [main] finalized in its
    metadata loop is the search text formatted there; a record without a
    [searchable_text] key, as a merged completion is stored, is embedded as
    the empty text. *)
Theorem embedded_texts_of_stored_records (fmt : value → str)
    (pdf_filename : str) (page_num : Z) (merged kept : list question) :
  Forall (λ q, q !! "searchable_text" = None) merged →
  searchable_texts (merged ++ (add_metadata fmt pdf_filename page_num <$> kept))
  = ((λ _, VStr []) <$> merged) ++
    ((λ q, VStr (py_str fmt (get_or_empty q "section_title") ++ u " " ++
                 py_str fmt (get_or_empty q "question_number") ++ u ": " ++
                 py_str fmt (get_or_empty q "stem_text"))) <$> kept).
Proof.
  intros Hmerged. unfold searchable_texts. rewrite fmap_app. f_equal.
  - apply list_fmap_ext. intros i q Hq.
    apply (Forall_lookup_1 _ _ _ _ Hmerged) in Hq.
    unfold get_or_empty. by rewrite Hq.
  - rewrite <- list_fmap_compose. apply list_fmap_ext. intros _ q _. simpl.
    unfold get_or_empty at 1. by rewrite add_metadata_searchable_text.
Qed.

(** X17.  [app.py] starts serving exactly when the store holds at least one
    record and either there is no embeddings file, in which case it serves
    without embeddings and without a model, or the embeddings file has as
    many rows as the store has records and the model loads. *)
Theorem start_app_serving_iff load_model store embeddings_file (g : @globals row) :
  start_app load_model store embeddings_file = Serving g ↔
  ∃ questions, store = Store questions ∧ questions ≠ [] ∧
    (embeddings_file = None ∧ g = Globals questions None None ∨
     ∃ rows model, embeddings_file = Some rows ∧ length questions = length rows ∧
                   load_model = Some model ∧
                   g = Globals questions (Some rows) (Some model)).
Proof.
  unfold start_app, load_database_and_create_embeddings. split.
  - destruct store as [| |questions]; [done|done|].
    destruct embeddings_file as [rows|].
    + case_bool_decide as Hlen; [done|].
      destruct load_model as [model|]; [|done]. simpl.
      destruct questions as [|q questions]; [done|]. intros [= <-].
      exists (q :: questions). split; [done|]. split; [done|]. right.
      exists rows, model. split; [done|]. split; [|done].
      destruct (decide (length (q :: questions) = length rows)); [done|]. by destruct Hlen.
    + simpl. destruct questions as [|q questions]; [done|]. intros [= <-].
      exists (q :: questions). split; [done|]. split; [done|]. by left.
  - intros (questions & -> & Hne & [[-> ->]|(rows & model & -> & Hlen & -> & ->)]).
    + simpl. by destruct questions.
    + rewrite bool_decide_eq_false_2 by (by intros ?). simpl. by destruct questions.
Qed.

(** X18.  Embeddings prepared from a non-empty store are accepted: if the
    model returns one row per text, the script stores the rows and the
    application then serves the records of the store with these rows. *)
Theorem prepared_embeddings_are_served model questions rows embeddings_file :
  questions ≠ [] →
  model (searchable_texts questions) = Ok rows →
  length rows = length (searchable_texts questions) →
  prepare_embeddings (Some model) (Store questions) embeddings_file = Ok (Some rows) ∧
  start_app (Some model) (Store questions) (Some rows)
    = Serving (Globals questions (Some rows) (Some model)).
Proof.
  intros Hne Hrows Hlen. split.
  - unfold prepare_embeddings.
    destruct (searchable_texts questions) as [|t texts] eqn:Htexts.
    + destruct questions; [done|discriminate].
    + by rewrite Hrows.
  - unfold start_app, load_database_and_create_embeddings.
    rewrite bool_decide_eq_false_2.
    + simpl. by destruct questions.
    + rewrite Hlen. unfold searchable_texts. rewrite length_fmap. by intros ?.
Qed.

(** X19.  Embeddings go stale: once the store has gained records, the rows
    prepared for the store as it was no longer match, and the application
    refuses to start until the embeddings are prepared again. *)
Theorem stale_embeddings_abort load_model questions (added : list question) rows :
  length rows = length questions →
  added ≠ [] →
  start_app load_model (Store (questions ++ added)) (Some rows) = Aborted.
Proof.
  intros Hlen Hadded. unfold start_app, load_database_and_create_embeddings.
  rewrite bool_decide_eq_true_2; [done|].
  rewrite length_app, Hlen. destruct added; [done|]. simpl. lia.
Qed.

End ScriptFacts.

(** ** The further properties at sample inputs *)

(** A record with options and no stem. *)
Lemma empty_stem_is_complete_witness :
  get_or_empty ({[ "options" := VNone ]} : question) "stem_text" = VStr [] ∧
  is_question_incomplete ({[ "options" := VNone ]} : question) = Ok false.
Proof.
  split; [reflexivity|].
  apply (empty_stem_is_complete {[ "options" := VNone ]}). reflexivity.
Defined.

(** The fenced answer of [demo_chat] to image 1, with two spaces before the
    block and a line feed after it. *)
Lemma fenced_answer_is_unwrapped_witness :
  let ws1 := u "  " in
  let ws2 := [LF] in
  let body := [LF] ++ u "[Q1]" ++ [LF] in
  Forall (λ c, isspace c = true) ws1 ∧
  Forall (λ c, isspace c = true) ws2 ∧
  demo_chat 1 VLM_PROMPT = Some (ws1 ++ (json_fence ++ body ++ closing_fence) ++ ws2) ∧
  clean_content (ws1 ++ (json_fence ++ body ++ closing_fence) ++ ws2) = body ∧
  call_vlm_api demo_chat demo_json_loads 1%nat VLM_PROMPT = demo_json_loads body.
Proof.
  cbn zeta.
  assert (H1 : Forall (λ c, isspace c = true) (u "  ")) by (by repeat constructor).
  assert (H2 : Forall (λ c, isspace c = true) [LF]) by (by repeat constructor).
  split; [exact H1|]. split; [exact H2|]. split; [reflexivity|].
  exact (fenced_answer_is_unwrapped demo_chat demo_json_loads 1%nat VLM_PROMPT
           (u "  ") [LF] ([LF] ++ u "[Q1]" ++ [LF]) H1 H2 eq_refl).
Defined.

(** An answer with an opening fence and no closing one: the parser gets a
    lone bracket. *)
Lemma unclosed_fence_loses_three_witness :
  strip (u "```json[Q1]") = json_fence ++ u "[Q1]" ∧
  clean_content (u "```json[Q1]") = take (length (u "[Q1]") - 3) (u "[Q1]").
Proof.
  split; [vm_compute; reflexivity|].
  apply (unclosed_fence_loses_three (u "```json[Q1]") (u "[Q1]")).
  vm_compute; reflexivity.
Defined.

(** The design document's two-page file. *)
Lemma stored_provenance_witness :
  process_pages demo_vlm demo_fmt exam_pdf 0 [6; 7]%nat ([], None)
    = Ok ([q_full_stored exam_pdf; q_merged; add_metadata demo_fmt exam_pdf 2 q_other],
          None) ∧
  ∃ added,
    [q_full_stored exam_pdf; q_merged; add_metadata demo_fmt exam_pdf 2 q_other]
      = [] ++ added ∧
    Forall (λ q, is_merged_completion demo_vlm q ∨
                 (q !! "source_pdf" = Some (VStr exam_pdf) ∧
                  (∃ k, (0 < k ≤ 0 + length [6; 7]%nat)%nat ∧
                        q !! "source_page" = Some (VInt (Z.of_nat k))) ∧
                  is_Some (q !! "searchable_text"))) added.
Proof.
  split; [vm_compute; reflexivity|].
  apply (stored_provenance demo_vlm demo_fmt exam_pdf 0 [6; 7]%nat [] None _ None).
  vm_compute; reflexivity.
Defined.

(** After the first page of that file the fragment [q_fragment] is
    pending. *)
Lemma pending_fragment_was_judged_incomplete_witness :
  process_pages demo_vlm demo_fmt exam_pdf 0 [6]%nat ([], None)
    = Ok ([q_full_stored exam_pdf], Some q_fragment) ∧
  is_question_incomplete q_fragment = Ok true ∧
  current_prompt (Some q_fragment) = CONTINUATION_PROMPT q_fragment.
Proof.
  split; [vm_compute; reflexivity|].
  apply (pending_fragment_was_judged_incomplete demo_vlm demo_fmt exam_pdf 0 [6]%nat
           [] [q_full_stored exam_pdf] q_fragment).
  vm_compute; reflexivity.
Defined.

(** A service that fails on every call. *)
Lemma nothing_extracted_nothing_written_witness :
  let down := (λ (_ : nat) (_ : prompt), @None (list question)) in
  (∀ img p, down img p = None ∨ down img p = Some []) ∧
  main down demo_fmt [(exam_pdf, Some [Some 1; Some 2]%nat)] empty_disk
  = (empty_disk, Finished).
Proof.
  cbn zeta.
  assert (H : ∀ (img : nat) (p : prompt),
            @None (list question) = None ∨ @None (list question) = Some [])
    by (intros; by left).
  split; [exact H|].
  exact (nothing_extracted_nothing_written (λ _ _, None) demo_fmt
           [(exam_pdf, Some [Some 1; Some 2]%nat)] empty_disk H).
Defined.

(** A ledger that lists [exam.pdf]. *)
Lemma logged_files_are_skipped_witness :
  let files := [(exam_pdf, Some [Some 6; Some 7]%nat)] in
  let d := Disk (JsonList [q_merged]) (Some (exam_pdf ++ [LF])) in
  (∀ file, file ∈ files → file.1 ∈ load_processed_files (processed_log d)) ∧
  main demo_vlm demo_fmt files d = (d, Finished).
Proof.
  cbn zeta.
  assert (H : ∀ file : str * document nat,
            file ∈ [(exam_pdf, Some [Some 6; Some 7]%nat)] →
            file.1 ∈ load_processed_files
                       (processed_log (Disk (JsonList [q_merged]) (Some (exam_pdf ++ [LF]))))).
  { intros file ->%list_elem_of_singleton.
    apply (bool_decide_unpack _). vm_compute. exact I. }
  split; [exact H|].
  exact (logged_files_are_skipped demo_vlm demo_fmt _ _ H).
Defined.

(** A run that adds the three records of the two-page file to a store that
    holds one record. *)
Lemma main_only_appends_witness :
  let files := [(exam_pdf, Some [Some 6; Some 7]%nat)] in
  let d := Disk (JsonList [q_other]) None in
  let d1 := Disk (JsonList [q_other; q_full_stored exam_pdf; q_merged;
                            add_metadata demo_fmt exam_pdf 2 q_other])
                 (Some (exam_pdf ++ [LF])) in
  main demo_vlm demo_fmt files d = (d1, Finished) ∧
  default [] (processed_log d) `prefix_of` default [] (processed_log d1) ∧
  (stored (result_json d) `prefix_of` stored (result_json d1) ∨
   Finished = Crashed ∧ result_json d1 = NotJson).
Proof.
  cbn zeta.
  assert (H : main demo_vlm demo_fmt [(exam_pdf, Some [Some 6; Some 7]%nat)]
                (Disk (JsonList [q_other]) None)
              = (Disk (JsonList [q_other; q_full_stored exam_pdf; q_merged;
                                 add_metadata demo_fmt exam_pdf 2 q_other])
                      (Some (exam_pdf ++ [LF])), Finished))
    by (vm_compute; reflexivity).
  split; [exact H|].
  exact (main_only_appends demo_vlm demo_fmt _ _ _ _ H).
Defined.

(** The same run, with a second file on which every page fails. *)
Lemma finished_run_store_witness :
  let files := [(exam_pdf, Some [Some 6; Some 7]%nat); (spaced_pdf, Some [Some 2%nat])] in
  let d := Disk (JsonList [q_other]) None in
  let d1 := Disk (JsonList [q_other; q_full_stored exam_pdf; q_merged;
                            add_metadata demo_fmt exam_pdf 2 q_other])
                 (Some (exam_pdf ++ [LF])) in
  let new := filter (λ file, file.1 ∉ load_processed_files (processed_log d)) files in
  main demo_vlm demo_fmt files d = (d1, Finished) ∧
  stored (result_json d1)
    = stored (result_json d) ++ concat (file_output demo_vlm demo_fmt <$> new) ∧
  default [] (processed_log d1)
    = default [] (processed_log d) ++
      concat ((λ file, file.1 ++ [LF]) <$>
              filter (λ file, file_output demo_vlm demo_fmt file ≠ []) new).
Proof.
  cbn zeta.
  assert (H : main demo_vlm demo_fmt
                [(exam_pdf, Some [Some 6; Some 7]%nat); (spaced_pdf, Some [Some 2%nat])]
                (Disk (JsonList [q_other]) None)
              = (Disk (JsonList [q_other; q_full_stored exam_pdf; q_merged;
                                 add_metadata demo_fmt exam_pdf 2 q_other])
                      (Some (exam_pdf ++ [LF])), Finished))
    by (vm_compute; reflexivity).
  split; [exact H|].
  exact (finished_run_store demo_vlm demo_fmt _ _ _ H).
Defined.

(** Logging [exam.pdf] on a ledger that does not exist yet. *)
Lemma ledger_round_trip_witness :
  terminated None ∧ clean_name exam_pdf ∧
  ∀ other, other ∈ load_processed_files (log_processed_file exam_pdf None) ↔
           other = exam_pdf ∨ other ∈ load_processed_files None.
Proof.
  assert (H : clean_name exam_pdf).
  { split; [vm_compute; reflexivity|]. split; [vm_compute; reflexivity|].
    split; apply (bool_decide_unpack _); vm_compute; exact I. }
  split; [exact I|]. split; [exact H|].
  exact (ledger_round_trip exam_pdf None I H).
Defined.

(** The directory of the run that duplicates, with the name without the
    space: the second run changes nothing. *)
Lemma rerun_changes_nothing_witness :
  let files := [(exam_pdf, Some [Some 1%nat])] in
  let d1 := Disk (JsonList [q_full_stored exam_pdf]) (Some (exam_pdf ++ [LF])) in
  terminated (processed_log empty_disk) ∧
  forallb question_encodable (stored (result_json empty_disk)) = true ∧
  Forall clean_name files.*1 ∧
  NoDup files.*1 ∧
  main demo_vlm demo_fmt files empty_disk = (d1, Finished) ∧
  main demo_vlm demo_fmt files d1 = (d1, Finished).
Proof.
  cbn zeta.
  assert (Hstore : forallb question_encodable (stored (result_json empty_disk)) = true)
    by reflexivity.
  assert (Hclean : Forall clean_name [(exam_pdf, Some [Some 1%nat])].*1).
  { apply Forall_singleton. split; [vm_compute; reflexivity|].
    split; [vm_compute; reflexivity|].
    split; apply (bool_decide_unpack _); vm_compute; exact I. }
  assert (Hnodup : NoDup [(exam_pdf, Some [Some 1%nat])].*1) by apply NoDup_singleton.
  assert (Hrun : main demo_vlm demo_fmt [(exam_pdf, Some [Some 1%nat])] empty_disk
                 = (Disk (JsonList [q_full_stored exam_pdf]) (Some (exam_pdf ++ [LF])),
                    Finished)) by (vm_compute; reflexivity).
  split; [exact I|]. split; [exact Hstore|]. split; [exact Hclean|].
  split; [exact Hnodup|]. split; [exact Hrun|].
  exact (rerun_changes_nothing demo_vlm demo_fmt _ empty_disk _ _ I Hstore Hclean Hnodup
           Hrun).
Defined.

(** A store of two records, one of them without search text. *)
Lemma prepare_embeddings_outcome_witness :
  let questions := [q_full_stored exam_pdf; q_merged] in
  prepare_embeddings (Some demo_encode) (Store questions) None = Ok (Some [22; 0]%nat) ∧
  ((Some [22; 0]%nat = None ∧
    (Store questions = NoStore ∨ Store questions = Store [] ∧ is_Some (Some demo_encode))) ∨
   (∃ questions' model rows,
      Store questions = Store questions' ∧ questions' ≠ [] ∧ Some demo_encode = Some model ∧
      length (searchable_texts questions') = length questions' ∧
      model (searchable_texts questions') = Ok rows ∧
      Some [22; 0]%nat = Some rows)).
Proof.
  cbn zeta. split; [vm_compute; reflexivity|].
  apply (prepare_embeddings_outcome (Some demo_encode)
           (Store [q_full_stored exam_pdf; q_merged]) None (Some [22; 0]%nat)).
  vm_compute; reflexivity.
Defined.

Lemma prepared_embeddings_are_served_witness :
  let questions := [q_full_stored exam_pdf; q_merged] in
  questions ≠ [] ∧
  demo_encode (searchable_texts questions) = Ok [22; 0]%nat ∧
  length [22; 0]%nat = length (searchable_texts questions) ∧
  prepare_embeddings (Some demo_encode) (Store questions) None = Ok (Some [22; 0]%nat) ∧
  start_app (Some demo_encode) (Store questions) (Some [22; 0]%nat)
    = Serving (Globals questions (Some [22; 0]%nat) (Some demo_encode)).
Proof.
  cbn zeta.
  assert (H1 : [q_full_stored exam_pdf; q_merged] ≠ []) by done.
  assert (H2 : demo_encode (searchable_texts [q_full_stored exam_pdf; q_merged])
               = Ok [22; 0]%nat) by (vm_compute; reflexivity).
  assert (H3 : length [22; 0]%nat
               = length (searchable_texts [q_full_stored exam_pdf; q_merged]))
    by reflexivity.
  split; [exact H1|]. split; [exact H2|]. split; [exact H3|].
  exact (prepared_embeddings_are_served demo_encode _ _ None H1 H2 H3).
Defined.

(** One record added to a store of two after the embeddings were prepared. *)
Lemma stale_embeddings_abort_witness :
  length [22; 0]%nat = length [q_full_stored exam_pdf; q_merged] ∧
  [q_other] ≠ [] ∧
  start_app (Some demo_encode) (Store ([q_full_stored exam_pdf; q_merged] ++ [q_other]))
    (Some [22; 0]%nat) = Aborted.
Proof.
  assert (H1 : length [22; 0]%nat = length [q_full_stored exam_pdf; q_merged])
    by reflexivity.
  assert (H2 : [q_other] ≠ []) by done.
  split; [exact H1|]. split; [exact H2|].
  exact (stale_embeddings_abort (Some demo_encode) _ [q_other] _ H1 H2).
Defined.

(** The records stored for the second page of the two-page file: the
    completion as extracted and [q_other] finalized. *)
Lemma embedded_texts_of_stored_records_witness :
  Forall (λ q : question, q !! "searchable_text" = None) [q_merged] ∧
  searchable_texts ([q_merged] ++ (add_metadata demo_fmt exam_pdf 2 <$> [q_other]))
  = ((λ _, VStr []) <$> [q_merged]) ++
    ((λ q, VStr (py_str demo_fmt (get_or_empty q "section_title") ++ u " " ++
                 py_str demo_fmt (get_or_empty q "question_number") ++ u ": " ++
                 py_str demo_fmt (get_or_empty q "stem_text"))) <$> [q_other]).
Proof.
  assert (H : Forall (λ q : question, q !! "searchable_text" = None) [q_merged])
    by (apply Forall_singleton; vm_compute; reflexivity).
  split; [exact H|].
  exact (embedded_texts_of_stored_records demo_fmt exam_pdf 2 [q_merged] [q_other] H).
Defined.
